(** * pytorch-retinanet: the target encoder [encoder.py]

    A shallow embedding of [DataEncoder] (anchor table, anchor generator,
    target encoder) and the properties of its specification.

    Conventions of the embedding.
    - Python [float]s and the entries of float tensors are real numbers
      ([R]): arithmetic is exact.  An operation whose result is not a
      real number ([x/0], [log] of a non-positive number) produces one of
      the IEEE special values of type [fl], as [torch] does, and raises
      nothing.
    - Python [int]s are [Z]; the entries of a [LongTensor] are [Z] wrapped
      to 64 bits.
    - A tensor of shape [[..., k]] is the list of its rows in row-major
      order, a row being a k-tuple; the shape checks of [view] and
      [expand] are checks on lengths.
    - A method is a computation in the monad [M]: it reads and writes the
      attributes of [self], may raise, and counts the runs of
      [_get_anchor_wh]. *)

From Stdlib Require Import Reals Lra Lia ZArith QArith Qround List Bool Arith.
Import ListNotations.
Open Scope R_scope.

(** ** Exceptions and results *)

Inductive exn : Type :=
| ZeroDivisionError
| ValueError
| IndexError
| RuntimeError.

Inductive result (A : Type) : Type :=
| Ok (a : A)
| Raise (e : exn).
Arguments Ok {A} a.
Arguments Raise {A} e.

Definition rbind {A B} (r : result A) (k : A -> result B) : result B :=
  match r with
  | Ok a => k a
  | Raise e => Raise e
  end.

Fixpoint rmap {A B} (f : A -> result B) (l : list A) : result (list B) :=
  match l with
  | [] => Ok []
  | x :: l' => rbind (f x) (fun y => rbind (rmap f l') (fun ys => Ok (y :: ys)))
  end.

(** ** Numbers *)

(** A float that need not be a real number. *)
Inductive fl : Type :=
| Fin (r : R)
| PosInf
| NegInf
| NaN.

(** Division of two float tensors entries: no exception on a zero divisor. *)
Definition fdiv (x y : R) : fl :=
  if Req_dec_T y 0 then
    if Rlt_dec 0 x then PosInf
    else if Rlt_dec x 0 then NegInf
    else NaN
  else Fin (x / y).

(** [torch.log]. *)
Definition flog (x : fl) : fl :=
  match x with
  | Fin r =>
      if Rlt_dec 0 r then Fin (ln r)
      else if Req_dec_T r 0 then NegInf
      else NaN
  | PosInf => PosInf
  | NegInf => NaN
  | NaN => NaN
  end.

(** Python's [x / y] on floats raises on a zero divisor. *)
Definition py_div (x y : R) : result R :=
  if Req_dec_T y 0 then Raise ZeroDivisionError else Ok (x / y).

(** [math.sqrt] raises on a negative argument. *)
Definition math_sqrt (x : R) : result R :=
  if Rlt_dec x 0 then Raise ValueError else Ok (sqrt x).

(** Python's [pow] on positive floats. *)
Definition pow (x y : R) : R := Rpower x y.

(** Python's [int(q)] on a float: truncation towards zero. *)
Definition int (q : Q) : Z :=
  if Qle_bool 0 q then Qfloor q else Qceiling q.

(** Python's [a // b] on ints: floor division, raising on [b = 0]. *)
Definition py_floordiv (a b : Z) : result Z :=
  if Z.eqb b 0 then Raise ZeroDivisionError else Ok (a / b)%Z.

(** Addition of 64-bit signed integers ([LongTensor] entries). *)
Definition int64_wrap (z : Z) : Z :=
  ((z + 2 ^ 63) mod 2 ^ 64 - 2 ^ 63)%Z.

Definition int64_add (a b : Z) : Z := int64_wrap (a + b).

(** ** The object and the method monad *)

Abbreviation tensor2 := (list (R * R)).
Abbreviation tensor3 := (list (list (R * R))).
Abbreviation Box := (R * R * R * R)%type.

Record DataEncoder : Type := mkDataEncoder {
  anchor_areas : list R;
  aspect_ratios : list R;
  scale_ratios : list R;
  anchor_wh : tensor3
}.

(** The store: the attributes of [self], and how many times the body of
    [_get_anchor_wh] has run (a ghost counter of the embedding). *)
Record heap : Type := mkHeap {
  self : DataEncoder;
  wh_runs : nat
}.

Definition M (A : Type) : Type := heap -> result A * heap.

Definition ret {A} (a : A) : M A := fun h => (Ok a, h).

Definition bind {A B} (m : M A) (k : A -> M B) : M B :=
  fun h =>
    match m h with
    | (Ok a, h') => k a h'
    | (Raise e, h') => (Raise e, h')
    end.

Definition lift {A} (r : result A) : M A := fun h => (r, h).

Definition attr {A} (f : DataEncoder -> A) : M A :=
  fun h => (Ok (f (self h)), h).

Definition set_self (f : DataEncoder -> DataEncoder) : M unit :=
  fun h => (Ok tt, mkHeap (f (self h)) (wh_runs h)).

Definition count_wh_run : M unit :=
  fun h => (Ok tt, mkHeap (self h) (S (wh_runs h))).

Declare Scope method_scope.
Delimit Scope method_scope with method.
Notation "x <- m ;; k" := (bind m (fun x => k))
  (at level 61, m at next level, right associativity) : method_scope.
Notation "m ;; k" := (bind m (fun _ => k))
  (at level 61, right associativity) : method_scope.
Open Scope method_scope.

(** [for x in l: acc = body(x, acc)], the loop variable [acc] being the
    local that the body rebinds or appends to. *)
Fixpoint for_each {A Acc} (l : list A) (body : A -> Acc -> M Acc) (acc : Acc)
  : M Acc :=
  match l with
  | [] => ret acc
  | x :: l' => acc' <- body x acc ;; for_each l' body acc'
  end.

(** ** Tensor operations of [torch] used by the encoder *)

(** Consecutive rows of [k] entries. *)
Fixpoint chunks {A} (k : nat) (n : nat) (l : list A) : list (list A) :=
  match n with
  | O => []
  | S n' => firstn k l :: chunks k n' (skipn k l)
  end.

(** [torch.Tensor(l).view(n, -1, 2)] for a list [l] of pairs: [n] rows of
    equal length.  The dimension [-1] is inferred as the element count
    divided by [n * 2]: with [n = 0] it cannot be inferred, and the count
    must be a multiple of [n * 2]; an empty [l] gives [n] empty rows. *)
Definition view_rows (n : nat) (l : tensor2) : result tensor3 :=
  if Nat.eqb n 0 then Raise RuntimeError
  else if Nat.eqb (length l mod n) 0 then Ok (chunks (length l / n) n l)
  else Raise RuntimeError.

(** ** [DataEncoder._get_anchor_wh] (encoder.py 15-31) *)

Definition _get_anchor_wh : M tensor3 :=
  count_wh_run ;;
  areas <- attr anchor_areas ;;
  anchor_wh <- for_each areas (fun s anchor_wh =>
    ratios <- attr aspect_ratios ;;
    for_each ratios (fun ar anchor_wh =>
      q <- lift (py_div s ar) ;;
      h <- lift (math_sqrt q) ;;
      let w := ar * h in
      scales <- attr scale_ratios ;;
      for_each scales (fun sr anchor_wh =>
        let anchor_h := h * sr in
        let anchor_w := w * sr in
        ret (anchor_wh ++ [(anchor_w, anchor_h)])) anchor_wh) anchor_wh) [] ;;
  areas' <- attr anchor_areas ;;
  let num_fms := length areas' in
  lift (view_rows num_fms anchor_wh).

(** ** [DataEncoder.__init__] (encoder.py 9-13) *)

Definition __init__ : M unit :=
  set_self (fun o => mkDataEncoder
     [32 * 32; 64 * 64; 128 * 128; 256 * 256; 512 * 512]
     (aspect_ratios o) (scale_ratios o) (anchor_wh o)) ;;
  set_self (fun o => mkDataEncoder
     (anchor_areas o) [1 / 2; 1 / 1; 2 / 1] (scale_ratios o) (anchor_wh o)) ;;
  set_self (fun o => mkDataEncoder
     (anchor_areas o) (aspect_ratios o)
     [1; pow 2 (1 / 3); pow 2 (2 / 3)] (anchor_wh o)) ;;
  t <- _get_anchor_wh ;;
  set_self (fun o => mkDataEncoder
     (anchor_areas o) (aspect_ratios o) (scale_ratios o) t).

(** A freshly allocated object, no attribute bound yet (an unbound
    attribute is modelled by the empty list: [__init__] binds each
    attribute before it is read). *)
Definition fresh : heap := mkHeap (mkDataEncoder [] [] [] []) 0.

(** [DataEncoder()]: the store after construction. *)
Definition DataEncoder_new : heap := snd (__init__ fresh).

(** ** Geometry helpers of [utils] *)

(** Python's [range(n)]. *)
Definition range (n : Z) : list Z := map Z.of_nat (seq 0 (Z.to_nat n)).

(** Modelled from the spec: [utils.meshgrid] is not under src/.  The
    flat sequence of the pairs of a [size] x [size] grid in row-major order
    (row outer, column inner); with [swap_dims] the pair is [(col, row)],
    the [(x, y)] convention in which the first coordinate varies fastest,
    as the cell centers of the anchor generator require. *)
Definition meshgrid (size : Z) (swap_dims : bool) : tensor2 :=
  flat_map (fun row =>
    map (fun col =>
      if swap_dims then (IZR col, IZR row) else (IZR row, IZR col))
      (range size))
    (range size).

Inductive box_order : Type :=
| xyxy2xywh
| xywh2xyxy.

(** Modelled from the spec: [utils.change_box_order] is not under src/.
    Conversion between corners [(xmin, ymin, xmax, ymax)] and center and
    size [(cx, cy, w, h)], the two directions being exact inverses. *)
Definition change_box_order (boxes : list Box) (order : box_order)
  : list Box :=
  match order with
  | xyxy2xywh =>
      map (fun '(xmin, ymin, xmax, ymax) =>
        ((xmin + xmax) / 2, (ymin + ymax) / 2, xmax - xmin, ymax - ymin))
        boxes
  | xywh2xyxy =>
      map (fun '(cx, cy, w, h) =>
        (cx - w / 2, cy - h / 2, cx + w / 2, cy + h / 2))
        boxes
  end.

(** A matrix [[rows, ncols]]; the column count is kept, since a matrix
    without rows or without columns still has a shape. *)
Record matrix : Type := mkMatrix {
  ncols : nat;
  rows : list (list R)
}.

(** Intersection over union of two boxes given by their corners. *)
Definition iou_xyxy (a b : Box) : R :=
  let '(ax1, ay1, ax2, ay2) := a in
  let '(bx1, by1, bx2, by2) := b in
  let w := Rmax (Rmin ax2 bx2 - Rmax ax1 bx1) 0 in
  let h := Rmax (Rmin ay2 by2 - Rmax ay1 by1) 0 in
  let inter := w * h in
  let area_a := (ax2 - ax1) * (ay2 - ay1) in
  let area_b := (bx2 - bx1) * (by2 - by1) in
  let union := area_a + area_b - inter in
  if Req_dec_T union 0 then 0 else inter / union.

Inductive iou_order : Type :=
| order_xyxy
| order_xywh.

(** Modelled from the spec: [utils.box_iou] is not under src/.  The
    pairwise matrix [[|A|, |B|]]; inputs in ['xywh'] are first converted
    to corners; for each pair the intersection is the product of the
    overlap extents clamped at zero, the union is area(A) + area(B) -
    intersection, and the IoU is 0 when the union is 0. *)
Definition box_iou (boxes1 boxes2 : list Box) (order : iou_order) : matrix :=
  let boxes1 := match order with
                | order_xywh => change_box_order boxes1 xywh2xyxy
                | order_xyxy => boxes1
                end in
  let boxes2 := match order with
                | order_xywh => change_box_order boxes2 xywh2xyxy
                | order_xyxy => boxes2
                end in
  mkMatrix (length boxes2)
    (map (fun a => map (fun b => iou_xyxy a b) boxes2) boxes1).

(** ** More tensor operations *)

(** [l[i]] on a Python list or on the first dimension of a tensor. *)
Definition getitem {A} (l : list A) (i : nat) : result A :=
  match nth_error l i with
  | Some a => Ok a
  | None => Raise IndexError
  end.

(** [t + c] and [t * c] for a scalar [c]. *)
Definition tadd (t : tensor2) (c : R) : tensor2 :=
  map (fun '(a, b) => (a + c, b + c)) t.

Definition tmul (t : tensor2) (c : R) : tensor2 :=
  map (fun '(a, b) => (a * c, b * c)) t.

(** [t.view(fm, fm, 1, 2).expand(fm, fm, k, 2)] on a [[n, 2]] tensor: a
    negative dimension is no shape ([-1] twice cannot be inferred), and
    the element count must be [fm * fm * 2]; each cell is repeated [k]
    times. *)
Definition view_expand_cells (t : tensor2) (fm : Z) (k : nat)
  : result tensor2 :=
  if (fm <? 0)%Z then Raise RuntimeError
  else if Nat.eqb (length t) (Z.to_nat (fm * fm)) then
    Ok (flat_map (fun c => repeat c k) t)
  else Raise RuntimeError.

(** [t.view(1, 1, k, 2).expand(fm, fm, k, 2)] on a [[n, 2]] tensor: the
    element count must be [k * 2]; [-1] keeps a dimension as it is; the
    [k] rows are repeated for each of the [fm * fm] cells. *)
Definition view_expand_slots (t : tensor2) (fm : Z) (k : nat)
  : result tensor2 :=
  if Nat.eqb (length t) k then
    if (fm =? -1)%Z then Ok t
    else if (fm <? 0)%Z then Raise RuntimeError
    else Ok (concat (repeat t (Z.to_nat (fm * fm))))
  else Raise RuntimeError.

(** [torch.cat([a, b], last)] of two tensors with rows of two entries and
    the same leading dimensions. *)
Definition cat_last (a b : tensor2) : result (list Box) :=
  if Nat.eqb (length a) (length b) then
    Ok (map (fun '((x, y), (w, h)) => (x, y, w, h)) (combine a b))
  else Raise RuntimeError.

(** [torch.cat(ts, 0)]: the list must not be empty. *)
Definition torch_cat {A} (ts : list (list A)) : result (list A) :=
  match ts with
  | [] => Raise RuntimeError
  | _ => Ok (concat ts)
  end.

(** ** [DataEncoder._get_anchor_boxes] (encoder.py 33-56) *)

Definition _get_anchor_boxes (input_size : Z) : M (list Box) :=
  areas <- attr anchor_areas ;;
  let num_fms := length areas in
  let fm_sizes :=
    map (fun i =>
      int (inject_Z input_size / inject_Z (2 ^ Z.of_nat (i + 3)) + (1 # 2))%Q)
      (seq 0 num_fms) in
  boxes <- for_each (seq 0 num_fms) (fun i boxes =>
    fm_size <- lift (getitem fm_sizes i) ;;
    grid_size <- lift (py_floordiv input_size fm_size) ;;
    let xy := tadd (meshgrid fm_size true) (1 / 2) in
    xy <- lift (view_expand_cells (tmul xy (IZR grid_size)) fm_size 9) ;;
    t <- attr anchor_wh ;;
    wh_i <- lift (getitem t i) ;;
    wh <- lift (view_expand_slots wh_i fm_size 9) ;;
    box <- lift (cat_last xy wh) ;;
    ret (boxes ++ [box])) [] ;;
  lift (torch_cat boxes).

(** ** Tensor operations used by [encode] *)

Definition Rltb (x y : R) : bool := if Rlt_dec x y then true else false.

(** [t * c] on a [[n, 4]] tensor. *)
Definition tmul4 (t : list Box) (c : R) : list Box :=
  map (fun '(a, b, c', d) => (a * c, b * c, c' * c, d * c)) t.

(** [t[:, :2]] and [t[:, 2:]]. *)
Definition cols_lo (t : list Box) : tensor2 :=
  map (fun q : Box => let '(a, b, _, _) := q in (a, b)) t.

Definition cols_hi (t : list Box) : tensor2 :=
  map (fun q : Box => let '(_, _, c, d) := q in (c, d)) t.

(** Entrywise [a - b], [a / b] and [torch.log] on tensors of one shape. *)
Definition tsub (a b : tensor2) : tensor2 :=
  map (fun '((x, y), (u, v)) => (x - u, y - v)) (combine a b).

Definition tdiv (a b : tensor2) : list (fl * fl) :=
  map (fun '((x, y), (u, v)) => (fdiv x u, fdiv y v)) (combine a b).

Definition tlog (a : list (fl * fl)) : list (fl * fl) :=
  map (fun '(x, y) => (flog x, flog y)) a.

(** [torch.cat([a, b], 1)] of two [[n, 2]] tensors. *)
Abbreviation Loc := (fl * fl * fl * fl)%type.

Definition cat1 (a b : list (fl * fl)) : list Loc :=
  map (fun '((x, y), (w, h)) => (x, y, w, h)) (combine a b).

(** The maximum of a row and the index of its first occurrence: a later
    entry replaces the running maximum only when strictly greater. *)
Fixpoint row_max_from (best : R) (best_id i : nat) (l : list R) : R * nat :=
  match l with
  | [] => (best, best_id)
  | x :: l' =>
      if Rlt_dec best x then row_max_from x i (S i) l'
      else row_max_from best best_id (S i) l'
  end.

Definition row_max (l : list R) : R * nat :=
  match l with
  | [] => (0, 0%nat)
  | x :: l' => row_max_from x 0 1 l'
  end.

(** [m.max(1)]: the reduced dimension must not be empty. *)
Definition torch_max1 (m : matrix) : result (list R * list nat) :=
  if Nat.eqb (ncols m) 0 then Raise RuntimeError
  else Ok (split (map row_max (rows m))).

(** [t[ids]] for a tensor of indices. *)
Definition index_select {A} (t : list A) (ids : list nat) : result (list A) :=
  rmap (getitem t) ids.

(** [t[mask] = v]. *)
Definition masked_fill {A} (t : list A) (mask : list bool) (v : A) : list A :=
  map (fun p : A * bool => let '(x, b) := p in if b then v else x)
    (combine t mask).

(** [a & b] on masks. *)
Definition mask_and (a b : list bool) : list bool :=
  map (fun '(x, y) => andb x y) (combine a b).

(** ** [DataEncoder.encode] (encoder.py 58-86) *)

Definition encode (boxes : list Box) (labels : list Z) (input_size : Z)
  : M (list Loc * list Z) :=
  anchor_boxes <- _get_anchor_boxes input_size ;;
  let boxes := change_box_order boxes xyxy2xywh in
  let boxes := tmul4 boxes (IZR input_size) in
  let ious := box_iou anchor_boxes boxes order_xywh in
  max <- lift (torch_max1 ious) ;;
  let max_ious := fst max in
  let max_ids := snd max in
  boxes <- lift (index_select boxes max_ids) ;;
  let loc_xy :=
    tdiv (tsub (cols_lo boxes) (cols_lo anchor_boxes)) (cols_hi anchor_boxes) in
  let loc_wh := tlog (tdiv (cols_hi boxes) (cols_hi anchor_boxes)) in
  let loc_targets := cat1 loc_xy loc_wh in
  matched <- lift (index_select labels max_ids) ;;
  let cls_targets := map (int64_add 1) matched in
  let cls_targets :=
    masked_fill cls_targets (map (fun m => Rltb m 0.4) max_ious) 0%Z in
  let ignore :=
    mask_and (map (fun m => Rltb 0.4 m) max_ious)
             (map (fun m => Rltb m 0.5) max_ious) in
  let cls_targets := masked_fill cls_targets ignore (-1)%Z in
  ret (loc_targets, cls_targets).

(** ** [encode] with its float-dependent parts left open

    Two outcomes of [encode] are discrete and turn on exact values: the
    index that [max(1)] returns on a tie, and the side of 0.4 and 0.5 on
    which a maximum IoU falls.  On float32 tensors the entries of the IoU
    matrix are the float32 numbers that [utils.box_iou] computes, and the
    Python literals are compared as float32: 0.5 is a float32, 0.4 is
    not, and is taken as the nearest one, [f32_0_4].  [encode_with] is
    [encode] with the function [box_iou] and the two compared values as
    parameters; [encode] itself is the instance in exact arithmetic
    ([encode_exact_reading] below), and the method on float32 tensors is
    [encode_with f f32_0_4 0.5] for the float32 [box_iou] [f]. *)

Definition encode_with
           (box_iou_fn : list Box -> list Box -> iou_order -> matrix)
           (lit_0_4 lit_0_5 : R)
           (boxes : list Box) (labels : list Z) (input_size : Z)
  : M (list Loc * list Z) :=
  anchor_boxes <- _get_anchor_boxes input_size ;;
  let boxes := change_box_order boxes xyxy2xywh in
  let boxes := tmul4 boxes (IZR input_size) in
  let ious := box_iou_fn anchor_boxes boxes order_xywh in
  max <- lift (torch_max1 ious) ;;
  let max_ious := fst max in
  let max_ids := snd max in
  boxes <- lift (index_select boxes max_ids) ;;
  let loc_xy :=
    tdiv (tsub (cols_lo boxes) (cols_lo anchor_boxes)) (cols_hi anchor_boxes) in
  let loc_wh := tlog (tdiv (cols_hi boxes) (cols_hi anchor_boxes)) in
  let loc_targets := cat1 loc_xy loc_wh in
  matched <- lift (index_select labels max_ids) ;;
  let cls_targets := map (int64_add 1) matched in
  let cls_targets :=
    masked_fill cls_targets (map (fun m => Rltb m lit_0_4) max_ious) 0%Z in
  let ignore :=
    mask_and (map (fun m => Rltb lit_0_4 m) max_ious)
             (map (fun m => Rltb m lit_0_5) max_ious) in
  let cls_targets := masked_fill cls_targets ignore (-1)%Z in
  ret (loc_targets, cls_targets).

(** The float32 number nearest to 0.4: [0x3ECCCCCD], that is
    13421773 * 2^-25 = 0.4000000059604645. *)
Definition f32_0_4 : R := 13421773 / 2 ^ 25.

(** The finite float32 numbers: a significand of at most 24 bits times a
    power of two no smaller than 2^-149. *)
Definition binary32 (x : R) : Prop :=
  exists m e : Z,
    (Z.abs m < 2 ^ 24)%Z /\ (-149 <= e <= 104)%Z /\ x = IZR m * powerRZ 2 e.

(** What any [box_iou] returns: a matrix with a row for each box of the
    first argument and an entry in each row for each box of the second. *)
Definition iou_shape
           (box_iou_fn : list Box -> list Box -> iou_order -> matrix) : Prop :=
  forall boxes1 boxes2 order,
    ncols (box_iou_fn boxes1 boxes2 order) = length boxes2 /\
    length (rows (box_iou_fn boxes1 boxes2 order)) = length boxes1 /\
    Forall (fun row => length row = length boxes2)
           (rows (box_iou_fn boxes1 boxes2 order)).

(** Rounding to the nearest float32 of a number of [[1/4, 1/2)], where
    the float32 numbers are the multiples of 2^-25; other numbers are
    left as they are. *)
Definition round_f32_quarter_half (x : R) : R :=
  if Rle_dec (1 / 4) x then
    if Rlt_dec x (1 / 2) then IZR (Int_part (x * 2 ^ 25 + 1 / 2)) / 2 ^ 25
    else x
  else x.

(** [box_iou] of the specification with its entries in [[1/4, 1/2)] held
    as float32. *)
Definition box_iou_rounded (boxes1 boxes2 : list Box) (order : iou_order)
  : matrix :=
  mkMatrix (ncols (box_iou boxes1 boxes2 order))
           (map (map round_f32_quarter_half)
                (rows (box_iou boxes1 boxes2 order))).

(** * Functional views and specification-side definitions

    The methods above never write to the store after construction, so
    each has a view as a function of the object; the views are proved
    equal to the methods below ([get_anchor_wh_run],
    [get_anchor_boxes_run], [encode_run]) and carry the proofs. *)

(** ** The anchor table *)

(** The body of the two inner loops of [_get_anchor_wh] for one aspect
    ratio, and of the outer loop for one area. *)
Definition wh_of_ratio (scales : list R) (s ar : R) : result tensor2 :=
  rbind (py_div s ar) (fun q =>
  rbind (math_sqrt q) (fun h =>
  Ok (map (fun sr => (ar * h * sr, h * sr)) scales))).

Definition wh_of_area (o : DataEncoder) (s : R) : result tensor2 :=
  rbind (rmap (wh_of_ratio (scale_ratios o) s) (aspect_ratios o))
        (fun l => Ok (concat l)).

(** What [_get_anchor_wh] returns on object [o]. *)
Definition anchor_wh_of (o : DataEncoder) : result tensor3 :=
  rbind (rmap (wh_of_area o) (anchor_areas o)) (fun l =>
  view_rows (length (anchor_areas o)) (concat l)).

(** The table in the words of the specification: area outer, aspect ratio
    middle, scale ratio inner. *)
Definition anchor_wh_table (areas ratios scales : list R) : tensor3 :=
  map (fun s =>
    flat_map (fun ar =>
      let h := sqrt (s / ar) in
      let w := ar * h in
      map (fun sr => (w * sr, h * sr)) scales)
      ratios)
    areas.

(** A configuration on which no step of [_get_anchor_wh] raises. *)
Definition config_ok (o : DataEncoder) : Prop :=
  anchor_areas o <> [] /\ aspect_ratios o <> [] /\ scale_ratios o <> [] /\
  Forall (fun s => Forall (fun ar => ar <> 0 /\ 0 <= s / ar) (aspect_ratios o))
         (anchor_areas o).

(** The configuration and the object that [__init__] builds. *)
Definition default_areas : list R :=
  [32 * 32; 64 * 64; 128 * 128; 256 * 256; 512 * 512].
Definition default_ratios : list R := [1 / 2; 1 / 1; 2 / 1].
Definition default_scales : list R := [1; pow 2 (1 / 3); pow 2 (2 / 3)].

Definition default_encoder : DataEncoder :=
  mkDataEncoder default_areas default_ratios default_scales
    (anchor_wh_table default_areas default_ratios default_scales).

(** ** The anchor generator *)

(** The entry of [fm_sizes] for level [i]. *)
Definition fm_size_of (input_size : Z) (i : nat) : Z :=
  int (inject_Z input_size / inject_Z (2 ^ Z.of_nat (i + 3)) + (1 # 2))%Q.

(** [fm] is the integer nearest to [n / 2^k], a tie going up. *)
Definition rounds_to (n : Z) (k : Z) (fm : Z) : Prop :=
  (2 ^ k * (2 * fm - 1) <= 2 * n < 2 ^ k * (2 * fm + 1))%Z.

(** One iteration of the loop of [_get_anchor_boxes]: the boxes of level [i]. *)
Definition level_boxes (o : DataEncoder) (input_size : Z) (i : nat)
  : result (list Box) :=
  rbind (getitem (map (fm_size_of input_size)
                      (seq 0 (length (anchor_areas o)))) i) (fun fm_size =>
  rbind (py_floordiv input_size fm_size) (fun grid_size =>
  rbind (view_expand_cells
           (tmul (tadd (meshgrid fm_size true) (1 / 2)) (IZR grid_size))
           fm_size 9) (fun xy =>
  rbind (getitem (anchor_wh o) i) (fun wh_i =>
  rbind (view_expand_slots wh_i fm_size 9) (fun wh =>
  cat_last xy wh))))).

(** What [_get_anchor_boxes] returns on object [o]. *)
Definition anchor_boxes_of (o : DataEncoder) (input_size : Z)
  : result (list Box) :=
  rbind (rmap (level_boxes o input_size) (seq 0 (length (anchor_areas o))))
        torch_cat.

(** The cell centers of a level, row outer and column inner. *)
Definition cell_centers (fm grid : Z) : tensor2 :=
  flat_map (fun row =>
    map (fun col => ((IZR col + 1 / 2) * IZR grid, (IZR row + 1 / 2) * IZR grid))
        (range fm))
    (range fm).

(** The boxes of a level: cell outer, anchor slot inner. *)
Definition level_layout (fm grid : Z) (wh_i : tensor2) : list Box :=
  flat_map (fun c => map (fun wh => (fst c, snd c, fst wh, snd wh)) wh_i)
           (cell_centers fm grid).

(** Number of anchors of level [i], and of the levels before level [i]. *)
Definition level_count (n : Z) (i : nat) : nat :=
  (Z.to_nat (fm_size_of n i) * Z.to_nat (fm_size_of n i) * 9)%nat.

Fixpoint level_offset (n : Z) (i : nat) : nat :=
  match i with
  | O => 0%nat
  | S j => (level_offset n j + level_count n j)%nat
  end.

Definition total_anchors (n : Z) : nat := level_offset n 5.

(** The anchors of the constructed encoder, level by level. *)
Definition default_level (n : Z) (i : nat) : list Box :=
  level_layout (fm_size_of n i) (n / fm_size_of n i)
               (nth i (anchor_wh default_encoder) []).

Definition default_anchors (n : Z) : list Box :=
  concat (map (default_level n) (seq 0 5)).

(** ** The target encoder, anchor by anchor *)

(** One box from center and size to corners. *)
Definition to_xyxy (b : Box) : Box :=
  let '(cx, cy, w, h) := b in (cx - w / 2, cy - h / 2, cx + w / 2, cy + h / 2).

(** The ground truth as [encode] matches it: converted to center and size
    and scaled to pixels (encoder.py 71-72). *)
Definition scaled_boxes (boxes : list Box) (input_size : Z) : list Box :=
  tmul4 (change_box_order boxes xyxy2xywh) (IZR input_size).

(** IoU of an anchor and a ground-truth box, both as center and size. *)
Definition iou (a g : Box) : R := iou_xyxy (to_xyxy a) (to_xyxy g).

(** The row of the IoU matrix of anchor [a], and its [max(1)] entry. *)
Definition iou_row (gts : list Box) (a : Box) : list R := map (iou a) gts.

Definition match_of (gts : list Box) (a : Box) : R * nat :=
  row_max (iou_row gts a).

(** The regression target of anchor [a] matched to box [g]
    (encoder.py 78-80). *)
Definition loc_of (a g : Box) : Loc :=
  let '(ax, ay, aw, ah) := a in
  let '(gx, gy, gw, gh) := g in
  (fdiv (gx - ax) aw, fdiv (gy - ay) ah,
   flog (fdiv gw aw), flog (fdiv gh ah)).

(** The classification target of an anchor with maximum IoU [m] matched to
    a box of label [label]: the two overwrites in order (encoder.py 81-85). *)
Definition cls_of (m : R) (label : Z) : Z :=
  let c := int64_add 1 label in
  let c := if Rltb m 0.4 then 0%Z else c in
  if Rltb 0.4 m && Rltb m 0.5 then (-1)%Z else c.

(** Default of [nth]; never returned, the indices being in range. *)
Definition zero_box : Box := (0, 0, 0, 0).

(** [cls_of] with the compared values of [encode_with]. *)
Definition cls_with (lo hi m : R) (label : Z) : Z :=
  let c := int64_add 1 label in
  let c := if Rltb m lo then 0%Z else c in
  if Rltb lo m && Rltb m hi then (-1)%Z else c.

(** Lines 71-86 of [encode_with], after the anchors are known. *)
Definition targets_with
           (box_iou_fn : list Box -> list Box -> iou_order -> matrix)
           (lo hi : R) (anchor_boxes boxes : list Box) (labels : list Z)
           (input_size : Z) : result (list Loc * list Z) :=
  let gts := tmul4 (change_box_order boxes xyxy2xywh) (IZR input_size) in
  rbind (torch_max1 (box_iou_fn anchor_boxes gts order_xywh)) (fun max =>
  rbind (index_select gts (snd max)) (fun matched_boxes =>
  rbind (index_select labels (snd max)) (fun matched =>
  Ok (cat1 (tdiv (tsub (cols_lo matched_boxes) (cols_lo anchor_boxes))
                 (cols_hi anchor_boxes))
           (tlog (tdiv (cols_hi matched_boxes) (cols_hi anchor_boxes))),
      masked_fill
        (masked_fill (map (int64_add 1) matched)
                     (map (fun m => Rltb m lo) (fst max)) 0%Z)
        (mask_and (map (fun m => Rltb lo m) (fst max))
                  (map (fun m => Rltb m hi) (fst max)))
        (-1)%Z)))).

(** The ground-truth box [b] as [encode] matches it, in the words of the
    specification: center and size, times the input size. *)
Definition pixel_box (n : Z) (b : Box) : Box :=
  let '(xmin, ymin, xmax, ymax) := b in
  ((xmin + xmax) / 2 * IZR n, (ymin + ymax) / 2 * IZR n,
   (xmax - xmin) * IZR n, (ymax - ymin) * IZR n).

(** Lines 71-86 of [encode], after the anchors are known. *)
Definition targets (anchor_boxes boxes : list Box) (labels : list Z)
           (input_size : Z) : result (list Loc * list Z) :=
  let gts := scaled_boxes boxes input_size in
  rbind (torch_max1 (box_iou anchor_boxes gts order_xywh)) (fun max =>
  rbind (index_select gts (snd max)) (fun matched_boxes =>
  rbind (index_select labels (snd max)) (fun matched =>
  Ok (cat1 (tdiv (tsub (cols_lo matched_boxes) (cols_lo anchor_boxes))
                 (cols_hi anchor_boxes))
           (tlog (tdiv (cols_hi matched_boxes) (cols_hi anchor_boxes))),
      masked_fill
        (masked_fill (map (int64_add 1) matched)
                     (map (fun m => Rltb m 0.4) (fst max)) 0%Z)
        (mask_and (map (fun m => Rltb 0.4 m) (fst max))
                  (map (fun m => Rltb m 0.5) (fst max)))
        (-1)%Z)))).

(** [m] is the maximum of [l] and [id] the first index holding it. *)
Definition first_max (l : list R) (m : R) (id : nat) : Prop :=
  nth_error l id = Some m /\
  (forall j x, nth_error l j = Some x -> x <= m) /\
  (forall j x, (j < id)%nat -> nth_error l j = Some x -> x < m).

(** The matched box and label of an anchor. *)
Definition matched_box (gts : list Box) (a : Box) : Box :=
  nth (snd (match_of gts a)) gts zero_box.

Definition matched_label (gts : list Box) (labels : list Z) (a : Box) : Z :=
  nth (snd (match_of gts a)) labels 0%Z.

(** ** A worked input

    One ground-truth box [(0, 0, 0.4, 0.25)] of label 1 on a 64-pixel
    input.  The anchor of level 0, row 1, column 1 and slot 3 (aspect
    ratio 1, scale 1) is the 32 x 32 box centered at (12, 12); it contains
    the scaled box [(0, 0, 25.6, 16)], so their IoU is 409.6 / 1024. *)

Definition ex_boxes : list Box := [(0, 0, 2 / 5, 1 / 4)].
Definition ex_labels : list Z := [1%Z].
Definition ex_anchor : Box := (12, 12, 32, 32).

Definition ex_locs : list Loc :=
  map (fun a => loc_of a (matched_box (scaled_boxes ex_boxes 64) a))
      (default_anchors 64).

Definition ex_clss : list Z :=
  map (fun a => cls_of (fst (match_of (scaled_boxes ex_boxes 64) a))
                       (matched_label (scaled_boxes ex_boxes 64) ex_labels a))
      (default_anchors 64).

(** ** Vocabulary of the claims *)

(** Class labels as the data loader supplies them: non-negative and below
    the largest 64-bit integer. *)
Definition valid_label (l : Z) : Prop := (0 <= l < 2 ^ 63 - 1)%Z.

(** The anchor count in the words of the specification: the sum over the
    five levels of the squared feature-map size times 9. *)
Definition anchor_count (fm : nat -> Z) : Z :=
  fold_right Z.add 0%Z (map (fun i => (fm i * fm i * 9)%Z) (seq 0 5)).

(** Modelled from the spec: the decoder is not under src/.  Section 6 of
    the specification gives its formula: [box_xy = loc_xy * anchor_wh +
    anchor_xy] and [box_wh = exp(loc_wh) * anchor_wh]. *)
Definition decode (l : R * R * R * R) (a : Box) : Box :=
  let '(lx, ly, lw, lh) := l in
  let '(ax, ay, aw, ah) := a in
  (lx * aw + ax, ly * ah + ay, exp lw * aw, exp lh * ah).

(** A ground-truth box with positive width and height. *)
Definition valid_box (b : Box) : Prop :=
  let '(xmin, ymin, xmax, ymax) := b in xmin < xmax /\ ymin < ymax.

Definition positive_size (b : Box) : Prop :=
  let '(_, _, w, h) := b in 0 < w /\ 0 < h.

(** The table attribute is what [_get_anchor_wh] computes from the
    configuration attributes, as [__init__] leaves it. *)
Definition constructed (h : heap) : Prop :=
  fst (_get_anchor_wh h) = Ok (anchor_wh (self h)).

(** ** [test] (encoder.py 89-101) *)

(** The locals [boxes] and [labels] of [test] when [encode] is called: the
    32 x 32 box centered in the first cell of the stride-8 grid, divided
    by the input size. *)
Definition test_boxes : list Box :=
  let in_size := 600 in
  let c3_size := 75 in
  let grid_size := in_size / c3_size in
  let cx := grid_size / 2 in
  let cy := grid_size / 2 in
  let w := 32 in
  let h := 32 in
  let boxes := [(cx - w / 2, cy - w / 2, cx + w / 2, cy + w / 2)] in
  map (fun '(x1, y1, x2, y2) =>
         (x1 / in_size, y1 / in_size, x2 / in_size, y2 / in_size)) boxes.

Definition test_labels : list Z := [1%Z].

(** [test()]: it constructs an encoder, encodes and drops the targets. *)
Definition test : M unit :=
  __init__ ;;
  _ <- encode test_boxes test_labels 600 ;;
  ret tt.

(** ** What the anchor generator needs of the object *)

(** The object has a level, and each level a feature map with a cell and a
    table row of exactly 9 pairs. *)
Definition generator_ready (o : DataEncoder) (input_size : Z) : Prop :=
  anchor_areas o <> [] /\
  forall i, (i < length (anchor_areas o))%nat ->
    (1 <= fm_size_of input_size i)%Z /\
    exists slots, nth_error (anchor_wh o) i = Some slots /\
                  length slots = 9%nat.

(** The anchors of object [o], level by level. *)
Definition anchors_layout (o : DataEncoder) (input_size : Z) : list Box :=
  concat (map (fun i =>
                 level_layout (fm_size_of input_size i)
                              (input_size / fm_size_of input_size i)
                              (nth i (anchor_wh o) []))
              (seq 0 (length (anchor_areas o)))).

(** ** What [_get_anchor_wh] needs of the object *)


(** * Properties *)

(** ** Results and loops *)

Lemma rmap_length {A B} (f : A -> result B) (l : list A) (r : list B) :
  rmap f l = Ok r -> length r = length l.
Proof.
  revert r; induction l as [|x l IH]; intros r; simpl.
  - intros E; inversion E; reflexivity.
  - destruct (f x) as [y|e]; simpl; [|discriminate].
    destruct (rmap f l) as [ys|e]; simpl; [|discriminate].
    intros E; inversion E; subst; simpl. rewrite (IH ys eq_refl). reflexivity.
Qed.

Lemma rmap_total {A B} (f : A -> result B) (g : A -> B) (l : list A) :
  Forall (fun x => f x = Ok (g x)) l -> rmap f l = Ok (map g l).
Proof.
  induction 1 as [|x l Hx _ IH]; simpl; [reflexivity|].
  rewrite Hx, IH. reflexivity.
Qed.

Lemma rmap_ok_inv {A B} (f : A -> result B) (l : list A) (r : list B) :
  rmap f l = Ok r -> Forall2 (fun x y => f x = Ok y) l r.
Proof.
  revert r; induction l as [|x l IH]; intros r; simpl.
  - intros E; inversion E; constructor.
  - destruct (f x) as [y|e] eqn:Ex; simpl; [|discriminate].
    destruct (rmap f l) as [ys|e]; simpl; [|discriminate].
    intros E; inversion E; subst. constructor; auto.
Qed.

(** A loop whose body, in store [h], appends what [g] yields and leaves
    the store alone, appends the concatenation and leaves the store alone. *)
Lemma for_each_collect {A B} (g : A -> result (list B))
      (body : A -> list B -> M (list B)) (h : heap) :
  (forall x acc, body x acc h = (rbind (g x) (fun bs => Ok (acc ++ bs)), h)) ->
  forall l acc,
    for_each l body acc h
    = (rbind (rmap g l) (fun bss => Ok (acc ++ concat bss)), h).
Proof.
  intros Hbody l; induction l as [|x l IH]; intros acc; simpl.
  - unfold ret. rewrite app_nil_r. reflexivity.
  - unfold bind. rewrite Hbody.
    destruct (g x) as [bs|e]; simpl; [|reflexivity].
    rewrite IH. destruct (rmap g l) as [bss|e]; simpl; [|reflexivity].
    rewrite app_assoc. reflexivity.
Qed.

(** ** The anchor table as a function of the configuration *)

Lemma get_anchor_wh_run (h : heap) :
  _get_anchor_wh h
  = (anchor_wh_of (self h), mkHeap (self h) (S (wh_runs h))).
Proof.
  destruct h as [o n]. unfold _get_anchor_wh, anchor_wh_of, wh_of_area.
  unfold bind at 1. unfold count_wh_run. cbn [self wh_runs].
  unfold bind at 1. unfold attr at 1. cbn [self].
  unfold bind at 1.
  rewrite (for_each_collect (wh_of_area o)).
  - unfold wh_of_area.
    match goal with |- context [rmap ?f ?l] => destruct (rmap f l) as [r|e] end;
      simpl; reflexivity.
  - intros s acc. unfold bind at 1, attr at 1. cbn [self].
    unfold wh_of_area.
    rewrite (for_each_collect (wh_of_ratio (scale_ratios o) s)).
    + match goal with |- context [rmap ?f ?l] => destruct (rmap f l) as [r|e] end;
        reflexivity.
    + intros ar acc'. unfold wh_of_ratio, bind, lift, attr.
      destruct (py_div s ar) as [q|e]; simpl; [|reflexivity].
      destruct (math_sqrt q) as [hh|e]; simpl; [|reflexivity].
      rewrite (for_each_collect (fun sr => Ok [(ar * hh * sr, hh * sr)])).
      * rewrite (rmap_total _ (fun sr => [(ar * hh * sr, hh * sr)]));
          [|apply Forall_forall; reflexivity].
        simpl. f_equal. f_equal. f_equal.
        generalize (scale_ratios o).
        intros l; induction l; simpl; congruence.
      * intros sr acc''. reflexivity.
Qed.

Lemma chunks_concat {A} (k : nat) (ls : list (list A)) :
  Forall (fun l => length l = k) ls ->
  chunks k (length ls) (concat ls) = ls.
Proof.
  induction 1 as [|l ls Hl _ IH]; simpl; [reflexivity|].
  rewrite firstn_app, skipn_app, Hl, Nat.sub_diag. simpl.
  rewrite <- Hl, firstn_all, skipn_all, app_nil_r. simpl.
  rewrite Hl, IH. reflexivity.
Qed.

Lemma length_concat_uniform {A} (k : nat) (ls : list (list A)) :
  Forall (fun l => length l = k) ls ->
  length (concat ls) = (length ls * k)%nat.
Proof.
  induction 1 as [|l ls Hl _ IH]; simpl; [reflexivity|].
  rewrite length_app, Hl, IH. reflexivity.
Qed.

Lemma view_rows_uniform (k : nat) (ls : tensor3) :
  ls <> [] ->
  Forall (fun l => length l = k) ls ->
  view_rows (length ls) (concat ls) = Ok ls.
Proof.
  intros Hls Hall. unfold view_rows.
  rewrite (length_concat_uniform k ls Hall).
  assert (Hn : length ls <> 0%nat) by (destruct ls; simpl; congruence).
  destruct (Nat.eqb_spec (length ls) 0); [contradiction|].
  rewrite Nat.mul_comm, Nat.Div0.mod_mul, Nat.div_mul by assumption.
  simpl. rewrite (chunks_concat k ls Hall). reflexivity.
Qed.

Lemma view_rows_concat (k : nat) (ls : tensor3) :
  ls <> [] -> k <> 0%nat ->
  Forall (fun l => length l = k) ls ->
  view_rows (length ls) (concat ls) = Ok ls.
Proof. intros Hls _ Hall. exact (view_rows_uniform k ls Hls Hall). Qed.

Lemma py_div_ok (x y : R) : y <> 0 -> py_div x y = Ok (x / y).
Proof. intros H. unfold py_div. destruct (Req_dec_T y 0); tauto. Qed.

Lemma math_sqrt_ok (x : R) : 0 <= x -> math_sqrt x = Ok (sqrt x).
Proof.
  intros H. unfold math_sqrt. destruct (Rlt_dec x 0); [lra|reflexivity].
Qed.

Lemma length_flat_map_uniform {A B} (f : A -> list B) (k : nat) (l : list A) :
  (forall x, length (f x) = k) -> length (flat_map f l) = (length l * k)%nat.
Proof.
  intros H. induction l as [|x l IH]; simpl; [reflexivity|].
  rewrite length_app, H, IH. reflexivity.
Qed.

Lemma anchor_wh_of_ok (o : DataEncoder) :
  config_ok o ->
  anchor_wh_of o
  = Ok (anchor_wh_table (anchor_areas o) (aspect_ratios o) (scale_ratios o)).
Proof.
  intros (Ha & Hr & Hs & Hall). unfold anchor_wh_of.
  rewrite (rmap_total _
    (fun s => flat_map (fun ar =>
       let h := sqrt (s / ar) in let w := ar * h in
       map (fun sr => (w * sr, h * sr)) (scale_ratios o)) (aspect_ratios o))).
  - simpl.
    replace (length (anchor_areas o)) with
      (length (anchor_wh_table (anchor_areas o) (aspect_ratios o)
                 (scale_ratios o)))
      by (unfold anchor_wh_table; apply length_map).
    apply (view_rows_concat
             (length (aspect_ratios o) * length (scale_ratios o))).
    + unfold anchor_wh_table. destruct (anchor_areas o); simpl; congruence.
    + destruct (aspect_ratios o); [congruence|].
      destruct (scale_ratios o); [congruence|]. simpl. lia.
    + unfold anchor_wh_table. apply Forall_map, Forall_forall. intros s _.
      apply length_flat_map_uniform. intros ar. simpl. apply length_map.
  - apply Forall_forall. intros s Hin.
    rewrite Forall_forall in Hall. specialize (Hall s Hin).
    unfold wh_of_area.
    rewrite (rmap_total _ (fun ar =>
       map (fun sr => (ar * sqrt (s / ar) * sr, sqrt (s / ar) * sr))
           (scale_ratios o))).
    + simpl. rewrite flat_map_concat_map. reflexivity.
    + apply Forall_forall. intros ar Har.
      rewrite Forall_forall in Hall. destruct (Hall ar Har) as [H0 Hq].
      unfold wh_of_ratio. rewrite (py_div_ok _ _ H0). simpl.
      rewrite (math_sqrt_ok _ Hq). reflexivity.
Qed.

(** ** The constructed encoder *)

Lemma default_config_ok (t : tensor3) :
  config_ok (mkDataEncoder default_areas default_ratios default_scales t).
Proof.
  unfold config_ok, default_areas, default_ratios, default_scales; simpl.
  repeat split; try discriminate.
  repeat (apply Forall_cons || apply Forall_nil); split; lra.
Qed.

Lemma init_run :
  __init__ fresh = (Ok tt, mkHeap default_encoder 1).
Proof.
  unfold __init__, fresh.
  unfold bind at 1. unfold set_self at 1. cbn [self wh_runs aspect_ratios
    scale_ratios anchor_wh anchor_areas].
  unfold bind at 1. unfold set_self at 1. cbn [self wh_runs aspect_ratios
    scale_ratios anchor_wh anchor_areas].
  unfold bind at 1. unfold set_self at 1. cbn [self wh_runs aspect_ratios
    scale_ratios anchor_wh anchor_areas].
  unfold bind at 1. rewrite get_anchor_wh_run. cbn [self wh_runs].
  pose proof (anchor_wh_of_ok _ (default_config_ok [])) as E.
  cbn [anchor_areas aspect_ratios scale_ratios] in E.
  unfold default_encoder, default_areas, default_ratios, default_scales in *.
  unfold bind, attr, set_self, lift in *.
  rewrite E. reflexivity.
Qed.

Lemma DataEncoder_new_eq : DataEncoder_new = mkHeap default_encoder 1.
Proof. unfold DataEncoder_new. rewrite init_run. reflexivity. Qed.

(** ** Feature-map sizes *)

Lemma fm_size_arg (n : Z) (i : nat) :
  exists p : positive,
    (2 ^ Z.of_nat (i + 3))%Z = Z.pos p /\
    (inject_Z n / inject_Z (2 ^ Z.of_nat (i + 3)) + (1 # 2))%Q
    = Qmake (n * 1 * 2 + 1 * Z.pos (1 * p)) (1 * p * 2).
Proof.
  assert (H : (0 < 2 ^ Z.of_nat (i + 3))%Z) by (apply Z.pow_pos_nonneg; lia).
  destruct (2 ^ Z.of_nat (i + 3))%Z as [|p|p] eqn:E; try lia.
  exists p. split; reflexivity.
Qed.

Lemma fm_size_nonneg_input (n : Z) (i : nat) :
  (0 <= n)%Z ->
  fm_size_of n i
  = ((2 * n + 2 ^ Z.of_nat (i + 3)) / (2 * 2 ^ Z.of_nat (i + 3)))%Z.
Proof.
  intros Hn. unfold fm_size_of.
  destruct (fm_size_arg n i) as (p & Ep & Eq). rewrite Eq, Ep.
  unfold int, Qle_bool, Qfloor. cbn [Qnum Qden].
  destruct (Z.leb_spec (0 * Z.pos (1 * p * 2)) ((n * 1 * 2 + 1 * Z.pos (1 * p)) * 1))
    as [_|Hlt]; [|lia].
  f_equal; lia.
Qed.

Lemma fm_size_rounds (n : Z) (i : nat) :
  (0 <= n)%Z -> rounds_to n (Z.of_nat (i + 3)) (fm_size_of n i).
Proof.
  intros Hn. rewrite (fm_size_nonneg_input n i Hn). unfold rounds_to.
  assert (H : (0 < 2 ^ Z.of_nat (i + 3))%Z) by (apply Z.pow_pos_nonneg; lia).
  set (d := (2 ^ Z.of_nat (i + 3))%Z) in *.
  pose proof (Z.div_mod (2 * n + d) (2 * d) ltac:(lia)) as Hdm.
  pose proof (Z.mod_pos_bound (2 * n + d) (2 * d) ltac:(lia)) as Hb.
  set (q := ((2 * n + d) / (2 * d))%Z) in *. nia.
Qed.

Lemma fm_size_nonpos_input (n : Z) (i : nat) :
  (n <= 0)%Z -> (fm_size_of n i <= 0)%Z.
Proof.
  intros Hn. unfold fm_size_of.
  destruct (fm_size_arg n i) as (p & Ep & Eq). rewrite Eq.
  unfold int, Qle_bool, Qceiling, Qfloor, Qopp. cbn [Qnum Qden].
  destruct (Z.leb_spec (0 * Z.pos (1 * p * 2)) ((n * 1 * 2 + 1 * Z.pos (1 * p)) * 1))
    as [Hle|Hlt].
  - apply Z.lt_succ_r. apply Z.div_lt_upper_bound; lia.
  - assert (0 <= - (n * 1 * 2 + 1 * Z.pos (1 * p)) / Z.pos (1 * p * 2))%Z
      by (apply Z.div_pos; lia).
    lia.
Qed.

Lemma fm_size_pos (n : Z) (i : nat) :
  (i < 5)%nat -> (64 <= n)%Z -> (1 <= fm_size_of n i)%Z.
Proof.
  intros Hi Hn. rewrite fm_size_nonneg_input by lia.
  assert (H : (0 < 2 ^ Z.of_nat (i + 3))%Z) by (apply Z.pow_pos_nonneg; lia).
  assert (Hle : (2 ^ Z.of_nat (i + 3) <= 2 ^ 7)%Z)
    by (apply Z.pow_le_mono_r; lia).
  change (2 ^ 7)%Z with 128%Z in Hle.
  apply Z.div_le_lower_bound; lia.
Qed.

(** ** The anchor generator as a function of the object *)

Lemma rmap_singletons {A B} (f : A -> result B) (l : list A) :
  rbind (rmap (fun x => rbind (f x) (fun b => Ok [b])) l)
        (fun bss => Ok (concat bss))
  = rmap f l.
Proof.
  induction l as [|x l IH]; simpl; [reflexivity|].
  destruct (f x) as [b|e]; simpl; [|reflexivity].
  destruct (rmap (fun x => rbind (f x) (fun b => Ok [b])) l) as [bss|e];
    simpl in *.
  - destruct (rmap f l) as [bs|e]; simpl; inversion IH; reflexivity.
  - destruct (rmap f l) as [bs|e']; simpl; inversion IH; reflexivity.
Qed.

Lemma get_anchor_boxes_run (input_size : Z) (h : heap) :
  _get_anchor_boxes input_size h = (anchor_boxes_of (self h) input_size, h).
Proof.
  unfold _get_anchor_boxes, anchor_boxes_of.
  unfold bind at 1. unfold attr at 1.
  unfold bind at 1.
  rewrite (for_each_collect
             (fun i => rbind (level_boxes (self h) input_size i)
                             (fun b => Ok [b]))).
  - pose proof (rmap_singletons (level_boxes (self h) input_size)
                  (seq 0 (length (anchor_areas (self h))))) as E.
    destruct (rmap (fun i => rbind (level_boxes (self h) input_size i)
                                   (fun b => Ok [b])) _) as [bss|e];
      simpl in *; rewrite <- E; reflexivity.
  - intros i acc. unfold level_boxes, fm_size_of, bind, lift, attr, ret.
    repeat match goal with
           | |- context [match ?r with (_, _) => _ end] => fail
           | |- context [rbind ?r _] =>
               match r with
               | rbind _ _ => fail 1
               | _ => destruct r; simpl; try reflexivity
               end
           end.
Qed.

Lemma map_flat_map {A B C} (f : B -> C) (g : A -> list B) (l : list A) :
  map f (flat_map g l) = flat_map (fun x => map f (g x)) l.
Proof.
  induction l as [|x l IH]; simpl; [reflexivity|].
  rewrite map_app, IH. reflexivity.
Qed.

Lemma flat_map_ext_all {A B} (f g : A -> list B) (l : list A) :
  (forall x, f x = g x) -> flat_map f l = flat_map g l.
Proof.
  intros H. induction l as [|x l IH]; simpl; [reflexivity|].
  rewrite H, IH. reflexivity.
Qed.

Lemma meshgrid_centers (fm grid : Z) :
  tmul (tadd (meshgrid fm true) (1 / 2)) (IZR grid) = cell_centers fm grid.
Proof.
  unfold tmul, tadd, meshgrid, cell_centers.
  rewrite !map_flat_map. apply flat_map_ext_all. intros row.
  rewrite !map_map. reflexivity.
Qed.

Lemma length_range (n : Z) : length (range n) = Z.to_nat n.
Proof. unfold range. rewrite length_map, length_seq. reflexivity. Qed.

Lemma length_cell_centers (fm grid : Z) :
  length (cell_centers fm grid) = (Z.to_nat fm * Z.to_nat fm)%nat.
Proof.
  unfold cell_centers.
  rewrite (length_flat_map_uniform _ (Z.to_nat fm)).
  - rewrite length_range. reflexivity.
  - intros row. rewrite length_map, length_range. reflexivity.
Qed.

Lemma length_level_layout (fm grid : Z) (wh_i : tensor2) :
  length (level_layout fm grid wh_i)
  = (Z.to_nat fm * Z.to_nat fm * length wh_i)%nat.
Proof.
  unfold level_layout.
  rewrite (length_flat_map_uniform _ (length wh_i)).
  - rewrite length_cell_centers. reflexivity.
  - intros c. apply length_map.
Qed.

Lemma combine_repeat_l {A B} (c : A) (l : list B) :
  combine (repeat c (length l)) l = map (fun x => (c, x)) l.
Proof. induction l as [|x l IH]; simpl; [reflexivity|]. rewrite IH. reflexivity. Qed.

Lemma combine_app_eq {A B} (l1 l2 : list A) (m1 m2 : list B) :
  length l1 = length m1 ->
  combine (l1 ++ l2) (m1 ++ m2) = combine l1 m1 ++ combine l2 m2.
Proof.
  revert m1; induction l1 as [|x l1 IH]; intros [|y m1]; simpl;
    try discriminate; intros H; [reflexivity|].
  rewrite IH by congruence. reflexivity.
Qed.

Lemma combine_expand {A B} (cells : list A) (slots : list B) :
  combine (flat_map (fun c => repeat c (length slots)) cells)
          (concat (repeat slots (length cells)))
  = flat_map (fun c => map (fun x => (c, x)) slots) cells.
Proof.
  induction cells as [|c cells IH]; simpl; [reflexivity|].
  rewrite combine_app_eq by (rewrite repeat_length; reflexivity).
  rewrite combine_repeat_l, IH. reflexivity.
Qed.

Lemma getitem_ok {A} (l : list A) (i : nat) (a : A) :
  nth_error l i = Some a -> getitem l i = Ok a.
Proof. intros H. unfold getitem. rewrite H. reflexivity. Qed.

Lemma level_boxes_ok (o : DataEncoder) (n : Z) (i : nat) (wh_i : tensor2) :
  (i < length (anchor_areas o))%nat ->
  (1 <= fm_size_of n i)%Z ->
  nth_error (anchor_wh o) i = Some wh_i ->
  length wh_i = 9%nat ->
  level_boxes o n i
  = Ok (level_layout (fm_size_of n i) (n / fm_size_of n i) wh_i).
Proof.
  intros Hi Hfm Hwh Hlen. unfold level_boxes.
  rewrite (getitem_ok _ i (fm_size_of n i)).
  2:{ rewrite nth_error_map, nth_error_seq.
      destruct (Nat.ltb_spec i (length (anchor_areas o))); [reflexivity|lia]. }
  set (fm := fm_size_of n i) in *. cbn [rbind].
  unfold py_floordiv. destruct (Z.eqb_spec fm 0); [lia|]. cbn [rbind].
  rewrite meshgrid_centers. unfold view_expand_cells.
  destruct (Z.ltb_spec fm 0); [lia|].
  rewrite length_cell_centers, Z2Nat.inj_mul, Nat.eqb_refl by lia. cbn [rbind].
  rewrite (getitem_ok _ _ _ Hwh). cbn [rbind].
  unfold view_expand_slots. rewrite Hlen, Nat.eqb_refl.
  destruct (Z.eqb_spec fm (-1)); [lia|].
  destruct (Z.ltb_spec fm 0); [lia|]. cbn [rbind].
  unfold cat_last.
  rewrite (length_flat_map_uniform _ 9) by (intros; apply repeat_length).
  rewrite (length_concat_uniform 9)
    by (apply Forall_forall; intros x Hx; apply repeat_spec in Hx; subst; exact Hlen).
  rewrite repeat_length, length_cell_centers, Z2Nat.inj_mul, Nat.eqb_refl by lia.
  f_equal. unfold level_layout.
  rewrite <- (length_cell_centers fm (n / fm)).
  replace (fun c : R * R => repeat c 9)
    with (fun c : R * R => repeat c (length wh_i))
    by (rewrite Hlen; reflexivity).
  rewrite combine_expand, map_flat_map.
  apply flat_map_ext_all. intros [x y]. rewrite map_map.
  apply map_ext. intros [w hh]. reflexivity.
Qed.

(** ** Positions in the anchor list *)

Lemma nth_error_flat_map_uniform {A B} (f : A -> list B) (k : nat)
      (l : list A) (i j : nat) (x : A) :
  (forall y, length (f y) = k) ->
  (j < k)%nat ->
  nth_error l i = Some x ->
  nth_error (flat_map f l) (i * k + j) = nth_error (f x) j.
Proof.
  intros Hk Hj. revert i. induction l as [|y l IH]; intros i Hi.
  - destruct i; discriminate.
  - destruct i as [|i]; simpl in *.
    + inversion Hi; subst. rewrite nth_error_app1 by (rewrite Hk; exact Hj).
      reflexivity.
    + rewrite nth_error_app2 by (rewrite Hk; lia).
      rewrite Hk. replace (k + i * k + j - k)%nat with (i * k + j)%nat by lia.
      apply IH. exact Hi.
Qed.

Lemma nth_error_concat_at {A} (ls : list (list A)) (i j : nat) (l : list A) :
  nth_error ls i = Some l ->
  (j < length l)%nat ->
  nth_error (concat ls) (length (concat (firstn i ls)) + j) = nth_error l j.
Proof.
  revert i. induction ls as [|l0 ls IH]; intros i Hi Hj.
  - destruct i; discriminate.
  - destruct i as [|i]; simpl in *.
    + inversion Hi; subst. apply nth_error_app1. exact Hj.
    + rewrite length_app, nth_error_app2 by lia.
      replace (length l0 + length (concat (firstn i ls)) + j - length l0)%nat
        with (length (concat (firstn i ls)) + j)%nat by lia.
      apply IH; assumption.
Qed.

Lemma nth_error_range (n : Z) (i : nat) :
  (i < Z.to_nat n)%nat -> nth_error (range n) i = Some (Z.of_nat i).
Proof.
  intros H. unfold range. rewrite nth_error_map, nth_error_seq.
  destruct (Nat.ltb_spec i (Z.to_nat n)); [reflexivity|lia].
Qed.

Lemma nth_error_cell_centers (fm grid : Z) (row col : nat) :
  (row < Z.to_nat fm)%nat -> (col < Z.to_nat fm)%nat ->
  nth_error (cell_centers fm grid) (row * Z.to_nat fm + col)
  = Some ((IZR (Z.of_nat col) + 1 / 2) * IZR grid,
          (IZR (Z.of_nat row) + 1 / 2) * IZR grid).
Proof.
  intros Hr Hc. unfold cell_centers.
  rewrite (nth_error_flat_map_uniform _ (Z.to_nat fm) _ row col (Z.of_nat row)).
  - rewrite nth_error_map, (nth_error_range fm col Hc). reflexivity.
  - intros y. rewrite length_map, length_range. reflexivity.
  - exact Hc.
  - apply nth_error_range. exact Hr.
Qed.

Lemma nth_error_level_layout (fm grid : Z) (wh_i : tensor2)
      (row col slot : nat) (w h : R) :
  (row < Z.to_nat fm)%nat -> (col < Z.to_nat fm)%nat ->
  nth_error wh_i slot = Some (w, h) ->
  nth_error (level_layout fm grid wh_i)
            ((row * Z.to_nat fm + col) * length wh_i + slot)
  = Some ((IZR (Z.of_nat col) + 1 / 2) * IZR grid,
          (IZR (Z.of_nat row) + 1 / 2) * IZR grid, w, h).
Proof.
  intros Hr Hc Hs. unfold level_layout.
  rewrite (nth_error_flat_map_uniform _ (length wh_i) _ _ slot
             _ (fun y => length_map _ _)
             (proj1 (nth_error_Some wh_i slot) ltac:(congruence))
             (nth_error_cell_centers fm grid row col Hr Hc)).
  rewrite nth_error_map, Hs. reflexivity.
Qed.

(** ** The anchor list of the constructed encoder *)

Lemma anchor_wh_table_rows (areas ratios scales : list R) :
  Forall (fun r => length r = (length ratios * length scales)%nat)
         (anchor_wh_table areas ratios scales).
Proof.
  unfold anchor_wh_table. apply Forall_map, Forall_forall. intros s _.
  apply length_flat_map_uniform. intros ar. simpl. apply length_map.
Qed.

Lemma default_table_row (i : nat) :
  (i < 5)%nat ->
  nth_error (anchor_wh default_encoder) i
  = Some (nth i (anchor_wh default_encoder) []) /\
  length (nth i (anchor_wh default_encoder) []) = 9%nat.
Proof.
  intros Hi.
  assert (Hlen : length (anchor_wh default_encoder) = 5%nat)
    by (cbn [anchor_wh default_encoder]; unfold anchor_wh_table;
        rewrite length_map; reflexivity).
  assert (E : nth_error (anchor_wh default_encoder) i
              = Some (nth i (anchor_wh default_encoder) []))
    by (apply nth_error_nth'; lia).
  split; [exact E|].
  pose proof (anchor_wh_table_rows default_areas default_ratios default_scales)
    as Hall.
  rewrite Forall_forall in Hall.
  apply (Hall _ (nth_error_In _ _ E)).
Qed.

Lemma anchor_boxes_default (n : Z) :
  (64 <= n)%Z -> anchor_boxes_of default_encoder n = Ok (default_anchors n).
Proof.
  intros Hn. unfold anchor_boxes_of. cbn [anchor_areas default_encoder].
  change (length default_areas) with 5%nat.
  rewrite (rmap_total _ (default_level n)).
  - reflexivity.
  - apply Forall_forall. intros i Hi. apply in_seq in Hi.
    destruct (default_table_row i ltac:(lia)) as [E L].
    apply level_boxes_ok; try assumption.
    + cbn [anchor_areas default_encoder].
      change (length default_areas) with 5%nat. lia.
    + apply fm_size_pos; lia.
Qed.

Lemma length_default_level (n : Z) (i : nat) :
  (i < 5)%nat -> length (default_level n i) = level_count n i.
Proof.
  intros Hi. unfold default_level, level_count.
  rewrite length_level_layout.
  destruct (default_table_row i Hi) as [_ L]. rewrite L. reflexivity.
Qed.

Lemma length_default_prefix (n : Z) (i : nat) :
  (i <= 5)%nat ->
  length (concat (map (default_level n) (seq 0 i))) = level_offset n i.
Proof.
  induction i as [|i IH]; intros Hi; [reflexivity|].
  rewrite seq_S, map_app, concat_app, length_app. simpl.
  rewrite app_nil_r, IH, length_default_level by lia. reflexivity.
Qed.

Lemma length_default_anchors (n : Z) :
  length (default_anchors n) = total_anchors n.
Proof. apply (length_default_prefix n 5). lia. Qed.

Lemma firstn_seq_le (s i n : nat) :
  (i <= n)%nat -> firstn i (seq s n) = seq s i.
Proof.
  revert s n; induction i as [|i IH]; intros s [|n] H; simpl;
    try reflexivity; try lia.
  rewrite IH by lia. reflexivity.
Qed.

Lemma nth_error_default_anchors (n : Z) (i row col slot : nat) (w h : R) :
  (i < 5)%nat ->
  (row < Z.to_nat (fm_size_of n i))%nat ->
  (col < Z.to_nat (fm_size_of n i))%nat ->
  nth_error (nth i (anchor_wh default_encoder) []) slot = Some (w, h) ->
  nth_error (default_anchors n)
    (level_offset n i + ((row * Z.to_nat (fm_size_of n i) + col) * 9 + slot))
  = Some ((IZR (Z.of_nat col) + 1 / 2) * IZR (n / fm_size_of n i),
          (IZR (Z.of_nat row) + 1 / 2) * IZR (n / fm_size_of n i), w, h).
Proof.
  intros Hi Hr Hc Hs.
  destruct (default_table_row i Hi) as [_ L].
  pose proof (nth_error_level_layout (fm_size_of n i) (n / fm_size_of n i)
                _ row col slot w h Hr Hc Hs) as E.
  rewrite L in E. rewrite <- E.
  rewrite <- (length_default_prefix n i) by lia.
  unfold default_anchors.
  replace (map (default_level n) (seq 0 i))
    with (firstn i (map (default_level n) (seq 0 5))).
  - apply nth_error_concat_at.
    + rewrite nth_error_map, nth_error_seq.
      destruct (Nat.ltb_spec i 5); [reflexivity|lia].
    + apply nth_error_Some. unfold default_level. rewrite E. discriminate.
  - rewrite firstn_map, firstn_seq_le by lia. reflexivity.
Qed.

(** ** The target encoder, anchor by anchor *)

Lemma encode_run (boxes : list Box) (labels : list Z) (n : Z) (h : heap) :
  encode boxes labels n h
  = (rbind (anchor_boxes_of (self h) n)
           (fun anchors => targets anchors boxes labels n), h).
Proof.
  unfold encode, bind. rewrite get_anchor_boxes_run.
  destruct (anchor_boxes_of (self h) n) as [anchors|e]; [|reflexivity].
  cbn [rbind]. unfold targets, scaled_boxes, lift, ret.
  destruct (torch_max1 _) as [max|e]; [|reflexivity]. cbn [rbind].
  destruct (index_select _ (snd max)) as [mb|e]; [|reflexivity]. cbn [rbind].
  destruct (index_select labels (snd max)) as [ml|e]; reflexivity.
Qed.

Lemma split_map {A B C} (f : A -> B * C) (l : list A) :
  split (map f l) = (map (fun x => fst (f x)) l, map (fun x => snd (f x)) l).
Proof.
  induction l as [|x l IH]; simpl; [reflexivity|].
  rewrite IH. destruct (f x). reflexivity.
Qed.

Lemma combine_map {A B C} (f : A -> B) (g : A -> C) (l : list A) :
  combine (map f l) (map g l) = map (fun x => (f x, g x)) l.
Proof. induction l as [|x l IH]; simpl; [reflexivity|]. rewrite IH. reflexivity. Qed.

Lemma box_iou_xywh (anchors gts : list Box) :
  box_iou anchors gts order_xywh
  = mkMatrix (length gts) (map (iou_row gts) anchors).
Proof.
  unfold box_iou, change_box_order. rewrite length_map, !map_map.
  f_equal. apply map_ext. intros a. unfold iou_row. rewrite map_map.
  reflexivity.
Qed.

Lemma index_select_ok {A} (d : A) (t : list A) (ids : list nat) :
  Forall (fun id => (id < length t)%nat) ids ->
  index_select t ids = Ok (map (fun id => nth id t d) ids).
Proof.
  intros H. unfold index_select. apply rmap_total.
  eapply Forall_impl; [|exact H]. intros id Hid.
  apply getitem_ok, nth_error_nth'. exact Hid.
Qed.

Lemma index_select_inv {A} (t : list A) (ids : list nat) (r : list A) :
  index_select t ids = Ok r ->
  Forall (fun id => (id < length t)%nat) ids.
Proof.
  intros H. apply rmap_ok_inv in H.
  induction H as [|id y ids r Hy _ IH]; constructor; [|exact IH].
  unfold getitem in Hy. destruct (nth_error t id) eqn:E; [|discriminate].
  apply nth_error_Some. congruence.
Qed.

(** ** The row maximum *)


Lemma row_max_from_first_max (l p : list R) (best : R) (bid : nat) :
  first_max p best bid ->
  first_max (p ++ l) (fst (row_max_from best bid (length p) l))
                     (snd (row_max_from best bid (length p) l)).
Proof.
  revert p best bid. induction l as [|x l IH]; intros p best bid Hp.
  - simpl. rewrite app_nil_r. exact Hp.
  - simpl. destruct Hp as (Hn & Hle & Hlt).
    assert (Hbid : (bid < length p)%nat)
      by (apply nth_error_Some; congruence).
    replace (p ++ x :: l) with ((p ++ [x]) ++ l)
      by (rewrite <- app_assoc; reflexivity).
    replace (S (length p)) with (length (p ++ [x]))
      by (rewrite length_app; simpl; lia).
    assert (Hcase : forall j y, nth_error (p ++ [x]) j = Some y ->
              ((j < length p)%nat /\ nth_error p j = Some y) \/
              (j = length p /\ y = x)).
    { intros j y Hj. destruct (Nat.lt_ge_cases j (length p)) as [H|H].
      - left. rewrite nth_error_app1 in Hj by exact H. auto.
      - right. rewrite nth_error_app2 in Hj by exact H.
        destruct (j - length p)%nat as [|k] eqn:E; simpl in Hj.
        + split; [lia|congruence].
        + destruct k; discriminate. }
    destruct (Rlt_dec best x) as [Hbx|Hbx]; apply IH; repeat split.
    + rewrite nth_error_app2, Nat.sub_diag by lia. reflexivity.
    + intros j y Hj. destruct (Hcase j y Hj) as [[_ H]|[_ H]].
      * pose proof (Hle _ _ H). lra.
      * lra.
    + intros j y Hlt' Hj. destruct (Hcase j y Hj) as [[_ H]|[H _]].
      * pose proof (Hle _ _ H). lra.
      * lia.
    + rewrite nth_error_app1 by exact Hbid. exact Hn.
    + intros j y Hj. destruct (Hcase j y Hj) as [[_ H]|[_ H]].
      * exact (Hle _ _ H).
      * lra.
    + intros j y Hlt' Hj. destruct (Hcase j y Hj) as [[_ H]|[H _]].
      * exact (Hlt _ _ Hlt' H).
      * lia.
Qed.

Lemma row_max_first_max (l : list R) :
  l <> [] -> first_max l (fst (row_max l)) (snd (row_max l)).
Proof.
  destruct l as [|x l]; [congruence|]. intros _. unfold row_max.
  apply (row_max_from_first_max l [x] x 0).
  repeat split.
  - intros [|[|j]] y Hj; simpl in Hj; try discriminate.
    inversion Hj; lra.
  - intros j y Hj. lia.
Qed.

Lemma match_of_first_max (gts : list Box) (a : Box) :
  gts <> [] ->
  first_max (iou_row gts a) (fst (match_of gts a)) (snd (match_of gts a)).
Proof.
  intros H. apply row_max_first_max. unfold iou_row.
  destruct gts; simpl; congruence.
Qed.

Lemma match_of_in_range (gts : list Box) (a : Box) :
  gts <> [] -> (snd (match_of gts a) < length gts)%nat.
Proof.
  intros H. destruct (match_of_first_max gts a H) as (Hn & _).
  assert (Hlt : (snd (match_of gts a) < length (iou_row gts a))%nat)
    by (apply nth_error_Some; congruence).
  unfold iou_row in Hlt. rewrite length_map in Hlt. exact Hlt.
Qed.

Lemma scaled_boxes_length (boxes : list Box) (n : Z) :
  length (scaled_boxes boxes n) = length boxes.
Proof.
  unfold scaled_boxes, tmul4, change_box_order. rewrite !length_map.
  reflexivity.
Qed.

Lemma scaled_boxes_nonempty (boxes : list Box) (n : Z) :
  boxes <> [] -> scaled_boxes boxes n <> [].
Proof.
  intros H E. apply (f_equal (@length _)) in E.
  rewrite scaled_boxes_length in E. destruct boxes; simpl in E; congruence.
Qed.

Lemma targets_ok (anchors boxes : list Box) (labels : list Z) (n : Z) :
  boxes <> [] ->
  Forall (fun a => (snd (match_of (scaled_boxes boxes n) a) < length labels)%nat)
         anchors ->
  targets anchors boxes labels n
  = Ok (map (fun a => loc_of a (matched_box (scaled_boxes boxes n) a)) anchors,
        map (fun a => cls_of (fst (match_of (scaled_boxes boxes n) a))
                             (matched_label (scaled_boxes boxes n) labels a))
            anchors).
Proof.
  intros Hb Hl. unfold targets.
  set (gts := scaled_boxes boxes n) in *.
  assert (Hg : gts <> []) by (apply scaled_boxes_nonempty; exact Hb).
  rewrite box_iou_xywh. unfold torch_max1. cbn [ncols rows].
  destruct (Nat.eqb_spec (length gts) 0) as [E|_];
    [destruct gts; simpl in E; congruence|].
  cbn [rbind]. rewrite map_map, split_map. cbn [fst snd].
  fold (match_of gts).
  change (fun x : Box => snd (row_max (iou_row gts x)))
    with (fun x : Box => snd (match_of gts x)).
  change (fun x : Box => fst (row_max (iou_row gts x)))
    with (fun x : Box => fst (match_of gts x)).
  rewrite (index_select_ok zero_box)
    by (apply Forall_map, Forall_forall; intros a _;
        apply match_of_in_range; exact Hg).
  cbn [rbind].
  rewrite (index_select_ok 0%Z) by (apply Forall_map; exact Hl).
  cbn [rbind]. f_equal.
  unfold cat1, tlog, tdiv, tsub, cols_lo, cols_hi, masked_fill, mask_and.
  rewrite !map_map.
  repeat (rewrite !combine_map, !map_map).
  apply f_equal2.
  - apply map_ext. intros a. unfold loc_of, matched_box.
    destruct (nth (snd (match_of gts a)) gts zero_box) as [[[gx gy] gw] gh].
    destruct a as [[[ax ay] aw] ah]. reflexivity.
  - apply map_ext. intros a. reflexivity.
Qed.

Lemma targets_empty (anchors : list Box) (labels : list Z) (n : Z) :
  targets anchors [] labels n = Raise RuntimeError.
Proof. reflexivity. Qed.

Lemma targets_inv (anchors boxes : list Box) (labels : list Z) (n : Z)
      (r : list Loc * list Z) :
  targets anchors boxes labels n = Ok r ->
  boxes <> [] /\
  Forall (fun a => (snd (match_of (scaled_boxes boxes n) a) < length labels)%nat)
         anchors.
Proof.
  unfold targets. rewrite box_iou_xywh. unfold torch_max1. cbn [ncols rows].
  rewrite scaled_boxes_length.
  destruct (Nat.eqb_spec (length boxes) 0) as [E|Hne]; [discriminate|].
  cbn [rbind]. rewrite map_map, split_map. cbn [fst snd].
  destruct (index_select (scaled_boxes boxes n) _) as [mb|e]; [|discriminate].
  cbn [rbind].
  destruct (index_select labels _) as [ml|e] eqn:El; [|discriminate].
  intros _. split.
  - intros ->. apply Hne. reflexivity.
  - apply index_select_inv in El. rewrite Forall_map in El. exact El.
Qed.

(** What a successful call of [encode] returns. *)
Lemma encode_ok_inv (boxes : list Box) (labels : list Z) (n : Z) (h h' : heap)
      (locs : list Loc) (clss : list Z) :
  encode boxes labels n h = (Ok (locs, clss), h') ->
  exists anchors,
    _get_anchor_boxes n h = (Ok anchors, h) /\
    boxes <> [] /\
    Forall (fun a =>
      (snd (match_of (scaled_boxes boxes n) a) < length labels)%nat) anchors /\
    locs = map (fun a => loc_of a (matched_box (scaled_boxes boxes n) a))
               anchors /\
    clss = map (fun a => cls_of (fst (match_of (scaled_boxes boxes n) a))
                                (matched_label (scaled_boxes boxes n) labels a))
               anchors.
Proof.
  rewrite encode_run, get_anchor_boxes_run.
  destruct (anchor_boxes_of (self h) n) as [anchors|e]; [|discriminate].
  cbn [rbind]. intros E. inversion E as [[Et Eh]]. exists anchors.
  destruct (targets_inv _ _ _ _ _ Et) as [Hb Hl].
  rewrite (targets_ok _ _ _ _ Hb Hl) in Et. inversion Et. auto.
Qed.

(** When [encode] returns. *)
Lemma encode_ok (boxes : list Box) (labels : list Z) (n : Z) (h : heap)
      (anchors : list Box) :
  anchor_boxes_of (self h) n = Ok anchors ->
  boxes <> [] ->
  (length boxes <= length labels)%nat ->
  encode boxes labels n h
  = (Ok (map (fun a => loc_of a (matched_box (scaled_boxes boxes n) a)) anchors,
         map (fun a => cls_of (fst (match_of (scaled_boxes boxes n) a))
                              (matched_label (scaled_boxes boxes n) labels a))
             anchors), h).
Proof.
  intros Ha Hb Hl. rewrite encode_run, Ha. cbn [rbind].
  rewrite targets_ok; [reflexivity|exact Hb|].
  apply Forall_forall. intros a _.
  pose proof (match_of_in_range (scaled_boxes boxes n) a
                (scaled_boxes_nonempty boxes n Hb)) as H.
  rewrite scaled_boxes_length in H. lia.
Qed.

(** The anchor generator raises on a non-positive input size. *)
Lemma anchor_boxes_nonpos (o : DataEncoder) (n : Z) :
  (n <= 0)%Z -> exists e, anchor_boxes_of o n = Raise e.
Proof.
  intros Hn. unfold anchor_boxes_of.
  destruct (anchor_areas o) as [|s areas] eqn:Ea.
  - exists RuntimeError. reflexivity.
  - cbn [length seq rmap].
    assert (Hl : exists e, level_boxes o n 0 = Raise e).
    { unfold level_boxes. rewrite Ea. cbn [length seq map getitem nth_error rbind].
      pose proof (fm_size_nonpos_input n 0 Hn) as Hfm.
      unfold py_floordiv.
      destruct (Z.eqb_spec (fm_size_of n 0) 0) as [E|E].
      - exists ZeroDivisionError. reflexivity.
      - cbn [rbind]. unfold view_expand_cells.
        destruct (Z.ltb_spec (fm_size_of n 0) 0) as [_|H]; [|lia].
        exists RuntimeError. reflexivity. }
    destruct Hl as [e He]. exists e. rewrite He. reflexivity.
Qed.

Lemma valid_label_add (l : Z) :
  (- 2 ^ 63 <= l < 2 ^ 63 - 1)%Z -> int64_add 1 l = (1 + l)%Z.
Proof.
  intros H. unfold int64_add, int64_wrap.
  rewrite Z.mod_small by lia. lia.
Qed.

(** ** The worked input *)

Lemma fm_size_64_0 : fm_size_of 64 0 = 8%Z.
Proof. vm_compute. reflexivity. Qed.

Lemma sqrt_1024 : sqrt (32 * 32 / (1 / 1)) = 32.
Proof.
  replace (32 * 32 / (1 / 1)) with (32 * 32) by lra.
  apply sqrt_square. lra.
Qed.

Lemma ex_anchor_at_84 : nth_error (default_anchors 64) 84 = Some ex_anchor.
Proof.
  replace 84%nat
    with (level_offset 64 0
          + ((1 * Z.to_nat (fm_size_of 64 0) + 1) * 9 + 3))%nat
    by (vm_compute; reflexivity).
  rewrite (nth_error_default_anchors 64 0 1 1 3
             (1 / 1 * sqrt (32 * 32 / (1 / 1)) * 1)
             (sqrt (32 * 32 / (1 / 1)) * 1)).
  - rewrite fm_size_64_0, sqrt_1024.
    change (64 / 8)%Z with 8%Z. change (Z.of_nat 1) with 1%Z.
    unfold ex_anchor. repeat f_equal; lra.
  - lia.
  - rewrite fm_size_64_0. vm_compute. lia.
  - rewrite fm_size_64_0. vm_compute. lia.
  - reflexivity.
Qed.


Lemma default_get_anchor_boxes (n : Z) :
  (64 <= n)%Z ->
  _get_anchor_boxes n DataEncoder_new = (Ok (default_anchors n), DataEncoder_new).
Proof.
  intros Hn. rewrite get_anchor_boxes_run, DataEncoder_new_eq. cbn [self].
  rewrite (anchor_boxes_default n Hn). reflexivity.
Qed.

Lemma default_encode (boxes : list Box) (labels : list Z) (n : Z) :
  (64 <= n)%Z -> boxes <> [] -> (length boxes <= length labels)%nat ->
  encode boxes labels n DataEncoder_new
  = (Ok (map (fun a => loc_of a (matched_box (scaled_boxes boxes n) a))
             (default_anchors n),
         map (fun a => cls_of (fst (match_of (scaled_boxes boxes n) a))
                              (matched_label (scaled_boxes boxes n) labels a))
             (default_anchors n)), DataEncoder_new).
Proof.
  intros Hn Hb Hl. apply encode_ok; try assumption.
  rewrite DataEncoder_new_eq. cbn [self]. apply anchor_boxes_default. exact Hn.
Qed.

Lemma ex_encode :
  encode ex_boxes ex_labels 64 DataEncoder_new
  = (Ok (ex_locs, ex_clss), DataEncoder_new).
Proof.
  apply default_encode; [lia|discriminate|simpl; lia].
Qed.







Lemma cls_of_cases (m : R) (label : Z) :
  valid_label label ->
  (m < 0.4 -> cls_of m label = 0%Z) /\
  (0.4 < m < 0.5 -> cls_of m label = (-1)%Z) /\
  (0.5 <= m -> cls_of m label = (1 + label)%Z) /\
  (m = 0.4 -> cls_of m label = (1 + label)%Z).
Proof.
  intros Hv. unfold cls_of, Rltb.
  rewrite valid_label_add by (unfold valid_label in Hv; lia).
  repeat split; intros H;
    destruct (Rlt_dec m 0.4), (Rlt_dec 0.4 m), (Rlt_dec m 0.5);
    simpl; try reflexivity; lra.
Qed.

(** The targets of one anchor after a successful call. *)
Lemma encode_at (boxes : list Box) (labels : list Z) (n : Z) (h : heap)
      (locs : list Loc) (clss : list Z) :
  encode boxes labels n h = (Ok (locs, clss), h) ->
  exists anchors,
    _get_anchor_boxes n h = (Ok anchors, h) /\
    length locs = length anchors /\ length clss = length anchors /\
    forall k a,
      nth_error anchors k = Some a ->
      exists m id g label,
        first_max (iou_row (scaled_boxes boxes n) a) m id /\
        nth_error (scaled_boxes boxes n) id = Some g /\
        nth_error labels id = Some label /\
        nth_error locs k = Some (loc_of a g) /\
        nth_error clss k = Some (cls_of m label).
Proof.
  intros E. destruct (encode_ok_inv _ _ _ _ _ _ _ E)
    as (anchors & Ha & Hb & Hl & -> & ->).
  exists anchors. rewrite !length_map. repeat split; try assumption.
  intros k a Hk.
  set (gts := scaled_boxes boxes n) in *.
  assert (Hg : gts <> []) by (apply scaled_boxes_nonempty; exact Hb).
  rewrite Forall_forall in Hl. specialize (Hl a (nth_error_In _ _ Hk)).
  exists (fst (match_of gts a)), (snd (match_of gts a)),
         (matched_box gts a), (matched_label gts labels a).
  repeat split.
  - apply match_of_first_max. exact Hg.
  - apply match_of_first_max. exact Hg.
  - apply match_of_first_max. exact Hg.
  - apply nth_error_nth'. apply match_of_in_range. exact Hg.
  - apply nth_error_nth'. exact Hl.
  - rewrite nth_error_map, Hk. reflexivity.
  - rewrite nth_error_map, Hk. reflexivity.
Qed.

(** ** [encode_with], anchor by anchor *)

Lemma encode_exact_reading :
  encode = encode_with box_iou 0.4 0.5.
Proof. reflexivity. Qed.

Lemma encode_with_run
      (f : list Box -> list Box -> iou_order -> matrix) (lo hi : R)
      (boxes : list Box) (labels : list Z) (n : Z) (h : heap) :
  encode_with f lo hi boxes labels n h
  = (rbind (anchor_boxes_of (self h) n)
           (fun anchors => targets_with f lo hi anchors boxes labels n), h).
Proof.
  unfold encode_with, bind. rewrite get_anchor_boxes_run.
  destruct (anchor_boxes_of (self h) n) as [anchors|e]; [|reflexivity].
  cbn [rbind]. unfold targets_with, lift, ret.
  destruct (torch_max1 _) as [max|e]; [|reflexivity]. cbn [rbind].
  destruct (index_select _ (snd max)) as [mb|e]; [|reflexivity]. cbn [rbind].
  destruct (index_select labels (snd max)) as [ml|e]; reflexivity.
Qed.

Lemma map_fst_combine {A B} (l : list A) (l' : list B) :
  length l = length l' -> map fst (combine l l') = l.
Proof.
  revert l'; induction l as [|x l IH]; intros [|y l'] H; simpl in *;
    try reflexivity; try discriminate.
  rewrite IH by congruence. reflexivity.
Qed.

Lemma map_snd_combine {A B} (l : list A) (l' : list B) :
  length l = length l' -> map snd (combine l l') = l'.
Proof.
  revert l'; induction l as [|x l IH]; intros [|y l'] H; simpl in *;
    try reflexivity; try discriminate.
  rewrite IH by congruence. reflexivity.
Qed.

Lemma nth_error_combine {A B} (l : list A) (l' : list B) (k : nat)
      (a : A) (b : B) :
  nth_error l k = Some a -> nth_error l' k = Some b ->
  nth_error (combine l l') k = Some (a, b).
Proof.
  revert l l'; induction k as [|k IH]; intros [|x l] [|y l'] Ha Hb;
    simpl in *; try discriminate.
  - congruence.
  - apply IH; assumption.
Qed.

Lemma row_max_in_range (row : list R) :
  row <> [] -> (snd (row_max row) < length row)%nat.
Proof.
  intros H. destruct (row_max_first_max row H) as (Hn & _).
  apply nth_error_Some. congruence.
Qed.

(** The targets of anchor [a] whose row of the IoU matrix is [row]. *)
Lemma targets_with_ok
      (f : list Box -> list Box -> iou_order -> matrix) (lo hi : R)
      (anchors boxes : list Box) (labels : list Z) (n : Z) :
  iou_shape f ->
  boxes <> [] ->
  Forall (fun row => (snd (row_max row) < length labels)%nat)
         (rows (f anchors (scaled_boxes boxes n) order_xywh)) ->
  targets_with f lo hi anchors boxes labels n
  = Ok (map (fun z : Box * list R =>
               loc_of (fst z)
                      (nth (snd (row_max (snd z))) (scaled_boxes boxes n)
                           zero_box))
            (combine anchors (rows (f anchors (scaled_boxes boxes n)
                                      order_xywh))),
        map (fun z : Box * list R =>
               cls_with lo hi (fst (row_max (snd z)))
                        (nth (snd (row_max (snd z))) labels 0%Z))
            (combine anchors (rows (f anchors (scaled_boxes boxes n)
                                      order_xywh)))).
Proof.
  intros Hs Hb Hl. unfold targets_with.
  fold (scaled_boxes boxes n).
  set (gts := scaled_boxes boxes n) in *.
  assert (Hg : gts <> []) by (apply scaled_boxes_nonempty; exact Hb).
  destruct (Hs anchors gts order_xywh) as (Hc & Hr & Hrows).
  set (rws := rows (f anchors gts order_xywh)) in *.
  unfold torch_max1. rewrite Hc.
  destruct (Nat.eqb_spec (length gts) 0) as [E|_];
    [destruct gts; simpl in E; congruence|].
  cbn [rbind]. fold rws. rewrite split_map. cbn [fst snd].
  rewrite (index_select_ok zero_box).
  2:{ apply Forall_map. eapply Forall_impl; [|exact Hrows].
      cbv beta. intros row Hrow. rewrite <- Hrow.
      apply row_max_in_range. intros ->. simpl in Hrow.
      destruct gts; simpl in Hrow; congruence. }
  cbn [rbind].
  rewrite (index_select_ok 0%Z) by (apply Forall_map; exact Hl).
  cbn [rbind]. f_equal.
  assert (Ea : anchors = map fst (combine anchors rws))
    by (symmetry; apply map_fst_combine; congruence).
  assert (Er : rws = map snd (combine anchors rws))
    by (symmetry; apply map_snd_combine; congruence).
  remember (combine anchors rws) as z eqn:Ez. clear Ez.
  rewrite Er. rewrite Ea at 1 2 3.
  unfold cat1, tlog, tdiv, tsub, cols_lo, cols_hi, masked_fill, mask_and.
  rewrite !map_map.
  repeat (rewrite !combine_map, !map_map).
  apply f_equal2.
  - apply map_ext. intros [a row]. cbn [fst snd]. unfold loc_of.
    destruct (nth (snd (row_max row)) gts zero_box) as [[[gx gy] gw] gh].
    destruct a as [[[ax ay] aw] ah]. reflexivity.
  - apply map_ext. intros [a row]. reflexivity.
Qed.

Lemma targets_with_inv
      (f : list Box -> list Box -> iou_order -> matrix) (lo hi : R)
      (anchors boxes : list Box) (labels : list Z) (n : Z)
      (r : list Loc * list Z) :
  iou_shape f ->
  targets_with f lo hi anchors boxes labels n = Ok r ->
  boxes <> [] /\
  Forall (fun row => (snd (row_max row) < length labels)%nat)
         (rows (f anchors (scaled_boxes boxes n) order_xywh)).
Proof.
  intros Hs. unfold targets_with. fold (scaled_boxes boxes n).
  destruct (Hs anchors (scaled_boxes boxes n) order_xywh) as (Hc & _ & _).
  unfold torch_max1. rewrite Hc, scaled_boxes_length.
  destruct (Nat.eqb_spec (length boxes) 0) as [E|Hne]; [discriminate|].
  cbn [rbind]. rewrite split_map. cbn [fst snd].
  destruct (index_select (scaled_boxes boxes n) _) as [mb|e]; [|discriminate].
  cbn [rbind].
  destruct (index_select labels _) as [ml|e] eqn:El; [|discriminate].
  intros _. split.
  - intros ->. apply Hne. reflexivity.
  - apply index_select_inv in El. rewrite Forall_map in El. exact El.
Qed.

(** The targets of one anchor after a successful call of [encode_with]. *)
Lemma encode_with_at
      (f : list Box -> list Box -> iou_order -> matrix) (lo hi : R)
      (boxes : list Box) (labels : list Z) (n : Z) (h : heap)
      (locs : list Loc) (clss : list Z) :
  iou_shape f ->
  encode_with f lo hi boxes labels n h = (Ok (locs, clss), h) ->
  exists anchors,
    _get_anchor_boxes n h = (Ok anchors, h) /\
    length locs = length anchors /\ length clss = length anchors /\
    forall k a row,
      nth_error anchors k = Some a ->
      nth_error (rows (f anchors (scaled_boxes boxes n) order_xywh)) k
      = Some row ->
      exists m id g label,
        first_max row m id /\
        nth_error (scaled_boxes boxes n) id = Some g /\
        nth_error labels id = Some label /\
        nth_error locs k = Some (loc_of a g) /\
        nth_error clss k = Some (cls_with lo hi m label).
Proof.
  intros Hs E. rewrite encode_with_run in E.
  assert (Ha : _get_anchor_boxes n h = (anchor_boxes_of (self h) n, h))
    by apply get_anchor_boxes_run.
  destruct (anchor_boxes_of (self h) n) as [anchors|e]; [|discriminate].
  cbn [rbind] in E. inversion E as [Et]. exists anchors.
  destruct (targets_with_inv _ _ _ _ _ _ _ _ Hs Et) as [Hb Hl].
  rewrite (targets_with_ok _ _ _ _ _ _ _ Hs Hb Hl) in Et.
  inversion Et; subst locs clss. clear Et E.
  destruct (Hs anchors (scaled_boxes boxes n) order_xywh) as (_ & Hr & Hrows).
  set (gts := scaled_boxes boxes n) in *.
  set (rws := rows (f anchors gts order_xywh)) in *.
  assert (Hg : gts <> []) by (apply scaled_boxes_nonempty; exact Hb).
  split; [exact Ha|].
  rewrite !length_map, length_combine, Hr, Nat.min_id.
  split; [reflexivity|]. split; [reflexivity|].
  intros k a row Hk Hrow.
  rewrite Forall_forall in Hl, Hrows.
  pose proof (Hl row (nth_error_In _ _ Hrow)) as Hlab.
  pose proof (Hrows row (nth_error_In _ _ Hrow)) as Hlen.
  assert (Hne : row <> [])
    by (intros ->; simpl in Hlen; destruct gts; simpl in Hlen; congruence).
  exists (fst (row_max row)), (snd (row_max row)),
         (nth (snd (row_max row)) gts zero_box),
         (nth (snd (row_max row)) labels 0%Z).
  split; [apply row_max_first_max; exact Hne|].
  split; [apply nth_error_nth'; rewrite <- Hlen;
          apply row_max_in_range; exact Hne|].
  split; [apply nth_error_nth'; exact Hlab|].
  rewrite !nth_error_map, (nth_error_combine _ _ _ _ _ Hk Hrow).
  split; reflexivity.
Qed.

(** When [encode_with] returns on the constructed encoder. *)
Lemma default_encode_with
      (f : list Box -> list Box -> iou_order -> matrix) (lo hi : R)
      (boxes : list Box) (labels : list Z) (n : Z) :
  iou_shape f ->
  (64 <= n)%Z -> boxes <> [] -> (length boxes <= length labels)%nat ->
  exists locs clss,
    encode_with f lo hi boxes labels n DataEncoder_new
    = (Ok (locs, clss), DataEncoder_new).
Proof.
  intros Hs Hn Hb Hl. rewrite encode_with_run, DataEncoder_new_eq.
  cbn [self]. rewrite (anchor_boxes_default n Hn). cbn [rbind].
  rewrite targets_with_ok; [eexists _, _; reflexivity|exact Hs|exact Hb|].
  destruct (Hs (default_anchors n) (scaled_boxes boxes n) order_xywh)
    as (_ & _ & Hrows).
  eapply Forall_impl; [|exact Hrows]. cbv beta. intros row Hrow.
  assert (Hne : row <> []).
  { intros ->. simpl in Hrow. rewrite scaled_boxes_length in Hrow.
    destruct boxes; simpl in Hrow; congruence. }
  pose proof (row_max_in_range row Hne) as H.
  rewrite Hrow, scaled_boxes_length in H. lia.
Qed.

Lemma box_iou_shape : iou_shape box_iou.
Proof.
  intros b1 b2 order. unfold box_iou. cbn [ncols rows].
  destruct order; unfold change_box_order; rewrite ?length_map;
    (split; [reflexivity|]); (split; [reflexivity|]);
    apply Forall_map, Forall_forall; intros a _; rewrite ?length_map;
    reflexivity.
Qed.

Lemma box_iou_rounded_shape : iou_shape box_iou_rounded.
Proof.
  intros b1 b2 order. destruct (box_iou_shape b1 b2 order) as (Hc & Hr & Hrows).
  unfold box_iou_rounded. cbn [ncols rows]. rewrite length_map.
  split; [exact Hc|]. split; [exact Hr|].
  apply Forall_map. eapply Forall_impl; [|exact Hrows].
  cbv beta. intros row Hrow. rewrite length_map. exact Hrow.
Qed.

(** ** Float32 numbers around 0.4 *)

Lemma pow_2_25 : 2 ^ 25 = 33554432.
Proof. simpl. lra. Qed.

Lemma f32_0_4_value : f32_0_4 = 13421773 / 33554432.
Proof. unfold f32_0_4. rewrite pow_2_25. reflexivity. Qed.

Lemma f32_0_4_above : 0.4 < f32_0_4 < 0.5.
Proof. rewrite f32_0_4_value. lra. Qed.

Lemma powerRZ_2_nonneg (k : Z) :
  (0 <= k)%Z -> powerRZ 2 k = IZR (2 ^ k).
Proof.
  intros Hk. rewrite <- (Z2Nat.id k Hk), <- pow_powerRZ, pow_IZR.
  reflexivity.
Qed.

Lemma powerRZ_2_m25 : powerRZ 2 (-25) = / 33554432.
Proof.
  change (powerRZ 2 (-25)) with (/ 2 ^ 25). rewrite pow_2_25. reflexivity.
Qed.

Lemma f32_0_4_binary32 : binary32 f32_0_4.
Proof.
  exists 13421773%Z, (-25)%Z. split; [reflexivity|]. split; [lia|].
  rewrite f32_0_4_value, powerRZ_2_m25. lra.
Qed.

(** No float32 lies strictly between 13421772 * 2^-25 and 13421773 * 2^-25,
    the two neighbours of 0.4. *)
Lemma binary32_gap (x : R) :
  binary32 x -> ~ (13421772 / 33554432 < x < 13421773 / 33554432).
Proof.
  intros (m & e & Hm & He & ->) [Hlo Hhi].
  destruct (Z_le_gt_dec (-25) e) as [Hge|Hlt].
  - replace e with ((e + 25) + -25)%Z in Hlo, Hhi by lia.
    rewrite powerRZ_add in Hlo, Hhi by lra.
    rewrite powerRZ_2_nonneg, powerRZ_2_m25 in Hlo, Hhi by lia.
    set (K := (2 ^ (e + 25))%Z) in *.
    assert (H1 : IZR 13421772 < IZR (m * K)) by (rewrite mult_IZR; lra).
    assert (H2 : IZR (m * K) < IZR 13421773) by (rewrite mult_IZR; lra).
    apply lt_IZR in H1. apply lt_IZR in H2. lia.
  - replace e with (- (- e - 26) + -26)%Z in Hlo by lia.
    rewrite powerRZ_add in Hlo by lra.
    rewrite powerRZ_neg', powerRZ_2_nonneg in Hlo by lia.
    assert (Hp : 1 <= IZR (2 ^ (- e - 26))).
    { apply IZR_le. assert (0 < 2 ^ (- e - 26))%Z
        by (apply Z.pow_pos_nonneg; lia). lia. }
    assert (Hq : powerRZ 2 (-26) = / 67108864).
    { change (powerRZ 2 (-26)) with (/ 2 ^ 26).
      replace (2 ^ 26) with 67108864 by (simpl; lra). reflexivity. }
    rewrite Hq in Hlo.
    set (p := IZR (2 ^ (- e - 26))) in *.
    assert (Hi : 0 < / p <= 1).
    { split; [apply Rinv_0_lt_compat; lra|].
      rewrite <- Rinv_1. apply Rinv_le_contravar; lra. }
    assert (Hmb : IZR m < 16777216).
    { apply IZR_lt. change (2 ^ 24)%Z with 16777216%Z in Hm. lia. }
    set (q := / p) in *.
    assert (Hmq : IZR m * q <= 16777216).
    { destruct (Rle_lt_dec (IZR m) 0); nra. }
    nra.
Qed.

Lemma binary32_ge_0_4 (x : R) : binary32 x -> 0.4 <= x -> f32_0_4 <= x.
Proof.
  intros Hb Hx. rewrite f32_0_4_value.
  destruct (Rle_lt_dec (13421773 / 33554432) x) as [H|H]; [exact H|].
  exfalso. apply (binary32_gap x Hb). lra.
Qed.

Lemma binary32_lt_0_4 (x : R) : binary32 x -> x < f32_0_4 -> x < 0.4.
Proof.
  intros Hb Hx. rewrite f32_0_4_value in Hx.
  destruct (Rlt_le_dec x 0.4) as [H|H]; [exact H|].
  exfalso. apply (binary32_gap x Hb). lra.
Qed.

Lemma round_0_4 : round_f32_quarter_half 0.4 = f32_0_4.
Proof.
  unfold round_f32_quarter_half.
  destruct (Rle_dec (1 / 4) 0.4); [|lra].
  destruct (Rlt_dec 0.4 (1 / 2)); [|lra].
  rewrite <- (Int_part_spec (0.4 * 2 ^ 25 + 1 / 2) 13421773).
  - reflexivity.
  - rewrite pow_2_25. lra.
Qed.

Lemma cls_with_cases (lo hi m : R) (label : Z) :
  valid_label label -> lo < hi ->
  (m < lo -> cls_with lo hi m label = 0%Z) /\
  (lo < m < hi -> cls_with lo hi m label = (-1)%Z) /\
  (hi <= m -> cls_with lo hi m label = (1 + label)%Z) /\
  (m = lo -> cls_with lo hi m label = (1 + label)%Z).
Proof.
  intros Hv Hlh. unfold cls_with, Rltb.
  rewrite valid_label_add by (unfold valid_label in Hv; lia).
  repeat split; intros H;
    destruct (Rlt_dec m lo), (Rlt_dec lo m), (Rlt_dec m hi);
    simpl; try reflexivity; lra.
Qed.

Lemma cls_with_reveals (lo hi m : R) (label : Z) :
  valid_label label -> lo < hi ->
  (cls_with lo hi m label = 0%Z -> m < lo) /\
  (cls_with lo hi m label = (-1)%Z -> lo < m < hi) /\
  ((1 <= cls_with lo hi m label)%Z -> hi <= m \/ m = lo).
Proof.
  intros Hv Hlh. unfold cls_with, Rltb.
  rewrite valid_label_add by (unfold valid_label in Hv; lia).
  unfold valid_label in Hv.
  destruct (Rlt_dec m lo), (Rlt_dec lo m), (Rlt_dec m hi); cbn [andb];
    (split; [|split]); intros H; try lia; try lra;
    try (left; lra); right; lra.
Qed.

(** * The claims *)






Lemma total_anchors_count (n : Z) :
  (64 <= n)%Z -> Z.of_nat (total_anchors n) = anchor_count (fm_size_of n).
Proof.
  intros Hn. unfold total_anchors, anchor_count, level_offset, level_count.
  cbn [seq map fold_right].
  pose proof (fm_size_pos n 0 ltac:(lia) Hn).
  pose proof (fm_size_pos n 1 ltac:(lia) Hn).
  pose proof (fm_size_pos n 2 ltac:(lia) Hn).
  pose proof (fm_size_pos n 3 ltac:(lia) Hn).
  pose proof (fm_size_pos n 4 ltac:(lia) Hn).
  rewrite !Nat2Z.inj_add, !Nat2Z.inj_mul, !Z2Nat.id by lia.
  simpl Z.of_nat. lia.
Qed.

Lemma total_anchors_600 : Z.of_nat (total_anchors 600) = 67824%Z.
Proof. vm_compute. reflexivity. Qed.

(** C3.  On a valid input (an input size for which every feature map has
    a cell, at least one box, as many labels as boxes) [encode] returns,
    and both outputs have one entry per anchor: the sum over the five
    levels [i] of the square of [input_size / 2^(i+3)] rounded to the
    nearest integer, times 9; that is 67824 for an input size of 600. *)
Theorem output_size (boxes : list Box) (labels : list Z) (n : Z) :
  (64 <= n)%Z -> boxes <> [] -> length labels = length boxes ->
  exists locs clss,
    encode boxes labels n DataEncoder_new
    = (Ok (locs, clss), DataEncoder_new) /\
    length locs = total_anchors n /\
    length clss = total_anchors n /\
    Z.of_nat (total_anchors n) = anchor_count (fm_size_of n) /\
    (forall i, (i < 5)%nat -> rounds_to n (Z.of_nat (i + 3)) (fm_size_of n i)) /\
    (n = 600%Z -> Z.of_nat (total_anchors n) = 67824%Z).
Proof.
  intros Hn Hb Hl.
  eexists _, _. split; [apply default_encode; try assumption; lia|].
  rewrite !length_map, length_default_anchors.
  split; [reflexivity|]. split; [reflexivity|].
  split; [apply total_anchors_count; exact Hn|].
  split.
  - intros i _. apply fm_size_rounds. lia.
  - intros ->. exact total_anchors_600.
Qed.

(** C3 at the worked box and an input size of 600. *)
Lemma output_size_witness :
  exists locs clss,
    encode ex_boxes ex_labels 600 DataEncoder_new
    = (Ok (locs, clss), DataEncoder_new) /\
    Z.of_nat (length locs) = 67824%Z /\
    Z.of_nat (length clss) = 67824%Z.
Proof.
  destruct (output_size ex_boxes ex_labels 600
              ltac:(lia) ltac:(discriminate) eq_refl)
    as (locs & clss & E & Hl & Hc & _ & _ & H600).
  exists locs, clss. rewrite Hl, Hc.
  split; [exact E|]. split; exact (H600 eq_refl).
Defined.

(** C4.  For an input size for which every feature map has a cell, level
    [i] has feature-map size [fm], the rounding of [input_size / 2^(i+3)],
    and stride [input_size // fm]; the cell at [(row, col)] carries the 9
    boxes of the level's table, centered at
    [((col + 0.5) * stride, (row + 0.5) * stride)]; and the position of
    the box of slot [slot] in the flat list is that of the order level,
    row, column, slot. *)
Theorem anchor_box_layout (n : Z) (i row col slot : nat) (w h : R) :
  (64 <= n)%Z ->
  (i < 5)%nat ->
  (row < Z.to_nat (fm_size_of n i))%nat ->
  (col < Z.to_nat (fm_size_of n i))%nat ->
  nth_error (nth i (anchor_wh (self DataEncoder_new)) []) slot = Some (w, h) ->
  let fm := fm_size_of n i in
  let stride := (n / fm)%Z in
  rounds_to n (Z.of_nat (i + 3)) fm /\
  length (nth i (anchor_wh (self DataEncoder_new)) []) = 9%nat /\
  exists boxes,
    _get_anchor_boxes n DataEncoder_new = (Ok boxes, DataEncoder_new) /\
    length boxes = level_offset n 5 /\
    nth_error boxes
      (level_offset n i + ((row * Z.to_nat fm + col) * 9 + slot))
    = Some ((IZR (Z.of_nat col) + 0.5) * IZR stride,
            (IZR (Z.of_nat row) + 0.5) * IZR stride, w, h).
Proof.
  intros Hn Hi Hr Hc Hs fm stride.
  rewrite DataEncoder_new_eq in Hs |- *. cbn [self] in *.
  split; [apply fm_size_rounds; lia|].
  split; [apply default_table_row; exact Hi|].
  exists (default_anchors n).
  split; [rewrite <- DataEncoder_new_eq; apply default_get_anchor_boxes; exact Hn|].
  split; [apply length_default_anchors|].
  subst fm stride.
  rewrite (nth_error_default_anchors n i row col slot w h Hi Hr Hc Hs).
  repeat f_equal; lra.
Qed.

(** C4 at the anchor of the worked input: level 0, row 1, column 1, slot 3
    of a 64-pixel input is the box at position 84. *)
Lemma anchor_box_layout_witness :
  exists boxes,
    _get_anchor_boxes 64 DataEncoder_new = (Ok boxes, DataEncoder_new) /\
    nth_error boxes 84 = Some ex_anchor.
Proof.
  assert (Hs : nth_error (nth 0 (anchor_wh (self DataEncoder_new)) []) 3
               = Some (32, 32)).
  { rewrite DataEncoder_new_eq. cbn [self default_encoder anchor_wh].
    unfold anchor_wh_table, default_areas, default_ratios, default_scales.
    cbn [map flat_map app nth nth_error]. rewrite sqrt_1024.
    f_equal. f_equal; lra. }
  destruct (anchor_box_layout 64 0 1 1 3 32 32 ltac:(lia) ltac:(lia)
              ltac:(rewrite fm_size_64_0; vm_compute; lia)
              ltac:(rewrite fm_size_64_0; vm_compute; lia) Hs)
    as (_ & _ & boxes & E & _ & Hnth).
  exists boxes. split; [exact E|].
  rewrite fm_size_64_0 in Hnth.
  replace 84%nat
    with (level_offset 64 0 + ((1 * Z.to_nat 8 + 1) * 9 + 3))%nat
    by (vm_compute; reflexivity).
  rewrite Hnth. unfold ex_anchor.
  change (64 / 8)%Z with 8%Z. change (Z.of_nat 1) with 1%Z.
  repeat f_equal; lra.
Defined.

Lemma nth_error_anchor_wh_table (areas ratios scales : list R)
      (i j k : nat) (s ar sr : R) :
  nth_error areas i = Some s ->
  nth_error ratios j = Some ar ->
  nth_error scales k = Some sr ->
  nth_error (nth i (anchor_wh_table areas ratios scales) [])
            (j * length scales + k)
  = Some (ar * sqrt (s / ar) * sr, sqrt (s / ar) * sr).
Proof.
  intros Hs Har Hsr. unfold anchor_wh_table.
  assert (Hk : (k < length scales)%nat) by (apply nth_error_Some; congruence).
  match goal with
  | |- context [map ?F areas] =>
      assert (E : nth_error (map F areas) i = Some (F s))
        by (rewrite nth_error_map, Hs; reflexivity);
      rewrite (nth_error_nth _ _ [] E)
  end.
  rewrite (nth_error_flat_map_uniform _ (length scales) ratios j k ar
             (fun y => length_map _ _) Hk Har).
  cbv zeta. rewrite nth_error_map, Hsr. reflexivity.
Qed.

(** C5.  The table built at construction is the nested enumeration, area
    outer, aspect ratio middle, scale ratio inner, of the pairs
    [(w * sr, h * sr)] with [h = sqrt (s / ar)] and [w = ar * h]: 5 levels
    of 9 slots, the slot of aspect ratio [j] and scale ratio [k] being
    [3 * j + k]. *)
Theorem anchor_wh_layout (i j k : nat) (s ar sr : R) :
  nth_error (anchor_areas (self DataEncoder_new)) i = Some s ->
  nth_error (aspect_ratios (self DataEncoder_new)) j = Some ar ->
  nth_error (scale_ratios (self DataEncoder_new)) k = Some sr ->
  __init__ fresh = (Ok tt, DataEncoder_new) /\
  anchor_wh (self DataEncoder_new)
  = anchor_wh_table (anchor_areas (self DataEncoder_new))
                    (aspect_ratios (self DataEncoder_new))
                    (scale_ratios (self DataEncoder_new)) /\
  length (aspect_ratios (self DataEncoder_new)) = 3%nat /\
  length (scale_ratios (self DataEncoder_new)) = 3%nat /\
  length (anchor_wh (self DataEncoder_new)) = 5%nat /\
  Forall (fun slots => length slots = 9%nat) (anchor_wh (self DataEncoder_new)) /\
  nth_error (nth i (anchor_wh (self DataEncoder_new)) []) (3 * j + k)
  = Some (let h := sqrt (s / ar) in let w := ar * h in (w * sr, h * sr)).
Proof.
  rewrite DataEncoder_new_eq.
  cbn [self default_encoder anchor_areas aspect_ratios scale_ratios anchor_wh].
  intros Hs Har Hsr.
  split; [exact init_run|]. split; [reflexivity|].
  split; [reflexivity|]. split; [reflexivity|].
  split; [unfold anchor_wh_table; rewrite length_map; reflexivity|].
  split; [exact (anchor_wh_table_rows default_areas default_ratios default_scales)|].
  pose proof (nth_error_anchor_wh_table _ _ _ i j k s ar sr Hs Har Hsr) as E.
  change (length default_scales) with 3%nat in E.
  rewrite Nat.mul_comm in E. exact E.
Qed.

(** C5 at level 0, aspect ratio 1 and scale ratio 1: slot 3 is 32 x 32. *)
Lemma anchor_wh_layout_witness :
  nth_error (nth 0 (anchor_wh (self DataEncoder_new)) []) (3 * 1 + 0)
  = Some (1 / 1 * sqrt (32 * 32 / (1 / 1)) * 1, sqrt (32 * 32 / (1 / 1)) * 1).
Proof.
  assert (Hs : nth_error (anchor_areas (self DataEncoder_new)) 0
               = Some (32 * 32))
    by (rewrite DataEncoder_new_eq; reflexivity).
  assert (Har : nth_error (aspect_ratios (self DataEncoder_new)) 1
                = Some (1 / 1))
    by (rewrite DataEncoder_new_eq; reflexivity).
  assert (Hsr : nth_error (scale_ratios (self DataEncoder_new)) 0 = Some 1)
    by (rewrite DataEncoder_new_eq; reflexivity).
  exact (proj2 (proj2 (proj2 (proj2 (proj2 (proj2
           (anchor_wh_layout 0 1 0 (32 * 32) (1 / 1) 1 Hs Har Hsr))))))).
Defined.

(** ** Positive sizes and decoding *)

Lemma anchor_wh_table_pos (areas ratios scales : list R) :
  Forall (fun s => 0 < s) areas ->
  Forall (fun ar => 0 < ar) ratios ->
  Forall (fun sr => 0 < sr) scales ->
  forall slots wh,
    In slots (anchor_wh_table areas ratios scales) -> In wh slots ->
    0 < fst wh /\ 0 < snd wh.
Proof.
  intros Ha Hr Hs slots wh Hslots Hwh. unfold anchor_wh_table in Hslots.
  rewrite Forall_forall in Ha, Hr, Hs.
  apply in_map_iff in Hslots. destruct Hslots as (s & <- & Hin_s).
  apply in_flat_map in Hwh. destruct Hwh as (ar & Hin_ar & Hwh).
  cbv zeta in Hwh. apply in_map_iff in Hwh. destruct Hwh as (sr & <- & Hin_sr).
  specialize (Ha s Hin_s). specialize (Hr ar Hin_ar). specialize (Hs sr Hin_sr).
  assert (Hq : 0 < sqrt (s / ar))
    by (apply sqrt_lt_R0, Rdiv_lt_0_compat; assumption).
  cbn [fst snd]. split.
  - apply Rmult_lt_0_compat; [apply Rmult_lt_0_compat|]; assumption.
  - apply Rmult_lt_0_compat; assumption.
Qed.

Lemma default_anchor_positive (n : Z) (a : Box) :
  In a (default_anchors n) -> positive_size a.
Proof.
  unfold default_anchors. intros H. apply in_concat in H.
  destruct H as (lvl & Hlvl & Ha). apply in_map_iff in Hlvl.
  destruct Hlvl as (i & <- & _). unfold default_level, level_layout in Ha.
  apply in_flat_map in Ha. destruct Ha as (c & _ & Ha).
  apply in_map_iff in Ha. destruct Ha as (wh & <- & Hwh).
  unfold positive_size.
  destruct (Nat.lt_ge_cases i (length (anchor_wh default_encoder))) as [Hi|Hi].
  - apply (anchor_wh_table_pos default_areas default_ratios default_scales
             ltac:(repeat constructor; lra) ltac:(repeat constructor; lra)
             ltac:(repeat constructor; try lra; apply exp_pos)
             (nth i (anchor_wh default_encoder) [])).
    + apply nth_In. exact Hi.
    + exact Hwh.
  - rewrite nth_overflow in Hwh by exact Hi. destruct Hwh.
Qed.

Lemma scaled_boxes_positive (boxes : list Box) (n : Z) (g : Box) :
  Forall valid_box boxes -> (0 < n)%Z ->
  In g (scaled_boxes boxes n) -> positive_size g.
Proof.
  intros Hv Hn Hg. unfold scaled_boxes, tmul4, change_box_order in Hg.
  rewrite map_map in Hg. apply in_map_iff in Hg.
  destruct Hg as ([[[x1 y1] x2] y2] & <- & Hin).
  rewrite Forall_forall in Hv. destruct (Hv _ Hin) as [Hx Hy].
  assert (0 < IZR n) by (apply IZR_lt; exact Hn).
  unfold positive_size. split; apply Rmult_lt_0_compat; lra.
Qed.

Lemma loc_of_decode (a g : Box) :
  positive_size a -> positive_size g ->
  exists lx ly lw lh,
    loc_of a g = (Fin lx, Fin ly, Fin lw, Fin lh) /\
    decode (lx, ly, lw, lh) a = g.
Proof.
  destruct a as [[[ax ay] aw] ah], g as [[[gx gy] gw] gh].
  intros [Haw Hah] [Hgw Hgh].
  exists ((gx - ax) / aw), ((gy - ay) / ah), (ln (gw / aw)), (ln (gh / ah)).
  assert (Hqw : 0 < gw / aw) by (apply Rdiv_lt_0_compat; assumption).
  assert (Hqh : 0 < gh / ah) by (apply Rdiv_lt_0_compat; assumption).
  split.
  - unfold loc_of, fdiv, flog.
    destruct (Req_dec_T aw 0); [lra|]. destruct (Req_dec_T ah 0); [lra|].
    destruct (Rlt_dec 0 (gw / aw)); [|contradiction].
    destruct (Rlt_dec 0 (gh / ah)); [|contradiction]. reflexivity.
  - unfold decode. rewrite !exp_ln by assumption.
    repeat f_equal; field; lra.
Qed.

Lemma scaled_boxes_nth (boxes : list Box) (n : Z) (id : nat) (g : Box) :
  nth_error (scaled_boxes boxes n) id = Some g ->
  exists xmin ymin xmax ymax,
    nth_error boxes id = Some (xmin, ymin, xmax, ymax) /\
    g = ((xmin + xmax) / 2 * IZR n, (ymin + ymax) / 2 * IZR n,
         (xmax - xmin) * IZR n, (ymax - ymin) * IZR n).
Proof.
  unfold scaled_boxes, tmul4, change_box_order.
  rewrite map_map, nth_error_map.
  destruct (nth_error boxes id) as [[[[x1 y1] x2] y2]|]; [|discriminate].
  cbn [option_map]. intros E. inversion E.
  exists x1, y1, x2, y2. split; reflexivity.
Qed.

(** C6.  For the constructed encoder and a valid input (every feature map
    has a cell, every ground-truth box has positive width and height), the
    regression target of every anchor is finite, and the decoder formula
    applied to it gives back the ground-truth box matched to the anchor,
    as center and size in pixels: the center
    [((xmin + xmax) / 2, (ymin + ymax) / 2)] and the size
    [(xmax - xmin, ymax - ymin)] of the box, times the input size,
    exactly. *)
Theorem encode_decode_round_trip (boxes : list Box) (labels : list Z) (n : Z)
        (locs : list Loc) (clss : list Z) :
  encode boxes labels n DataEncoder_new = (Ok (locs, clss), DataEncoder_new) ->
  (64 <= n)%Z ->
  Forall valid_box boxes ->
  exists anchors,
    _get_anchor_boxes n DataEncoder_new = (Ok anchors, DataEncoder_new) /\
    forall k ax ay aw ah,
      nth_error anchors k = Some (ax, ay, aw, ah) ->
      exists m id xmin ymin xmax ymax lx ly lw lh,
        first_max (iou_row (scaled_boxes boxes n) (ax, ay, aw, ah)) m id /\
        nth_error boxes id = Some (xmin, ymin, xmax, ymax) /\
        nth_error locs k = Some (Fin lx, Fin ly, Fin lw, Fin lh) /\
        decode (lx, ly, lw, lh) (ax, ay, aw, ah)
        = ((xmin + xmax) / 2 * IZR n, (ymin + ymax) / 2 * IZR n,
           (xmax - xmin) * IZR n, (ymax - ymin) * IZR n) /\
        lx * aw + ax = (xmin + xmax) / 2 * IZR n /\
        ly * ah + ay = (ymin + ymax) / 2 * IZR n /\
        exp lw * aw = (xmax - xmin) * IZR n /\
        exp lh * ah = (ymax - ymin) * IZR n.
Proof.
  intros E Hn Hv.
  destruct (encode_at _ _ _ _ _ _ E) as (anchors & Ha & _ & _ & Hat).
  exists anchors. split; [exact Ha|]. intros k ax ay aw ah Hk.
  destruct (Hat k _ Hk) as (m & id & g & label & Hm & Hg & _ & Hloc & _).
  assert (Hpa : positive_size (ax, ay, aw, ah)).
  { rewrite (default_get_anchor_boxes n Hn) in Ha. inversion Ha; subst.
    apply (default_anchor_positive n). eapply nth_error_In. exact Hk. }
  assert (Hpg : positive_size g).
  { apply (scaled_boxes_positive boxes n); [exact Hv|lia|].
    eapply nth_error_In. exact Hg. }
  destruct (loc_of_decode _ g Hpa Hpg) as (lx & ly & lw & lh & El & Ed).
  destruct (scaled_boxes_nth _ _ _ _ Hg) as (x1 & y1 & x2 & y2 & Hb & Eg).
  exists m, id, x1, y1, x2, y2, lx, ly, lw, lh.
  rewrite Hloc, El, Ed, Eg.
  split; [exact Hm|]. split; [exact Hb|]. split; [reflexivity|].
  split; [reflexivity|].
  rewrite Eg in Ed. unfold decode in Ed. inversion Ed. auto.
Qed.

(** C6 on the worked input: decoding the target of anchor 84 gives the
    box [(0, 0, 0.4, 0.25)] as center and size at 64 pixels,
    [(12.8, 8, 25.6, 16)]. *)
Lemma encode_decode_round_trip_witness :
  encode ex_boxes ex_labels 64 DataEncoder_new
  = (Ok (ex_locs, ex_clss), DataEncoder_new) /\
  Forall valid_box ex_boxes /\
  exists lx ly lw lh,
    nth_error ex_locs 84 = Some (Fin lx, Fin ly, Fin lw, Fin lh) /\
    decode (lx, ly, lw, lh) ex_anchor = (64 / 5, 8, 128 / 5, 16).
Proof.
  assert (Hv : Forall valid_box ex_boxes)
    by (repeat constructor; simpl; lra).
  split; [exact ex_encode|]. split; [exact Hv|].
  destruct (encode_decode_round_trip ex_boxes ex_labels 64 ex_locs ex_clss
              ex_encode ltac:(lia) Hv) as (anchors & Ha & Hat).
  rewrite (default_get_anchor_boxes 64 ltac:(lia)) in Ha.
  inversion Ha; subst anchors.
  destruct (Hat 84%nat 12 12 32 32 ex_anchor_at_84)
    as (m & id & x1 & y1 & x2 & y2 & lx & ly & lw & lh
        & _ & Hb & Hloc & Hd & _).
  exists lx, ly, lw, lh. split; [exact Hloc|].
  unfold ex_anchor. rewrite Hd.
  destruct id as [|[|id]]; simpl in Hb; try discriminate.
  inversion Hb. subst.
  apply f_equal2; [apply f_equal2; [apply f_equal2|]|]; lra.
Defined.

(** C7, as amended.  [encode] validates nothing itself.  It fails, with an
    exception raised to the caller, no result and the encoder unchanged,
    whenever [input_size] is not positive; and on an input size for which
    every feature map has a cell it returns targets for any non-empty
    sequence of boxes, whatever their width and height, as soon as there
    are at least as many labels as boxes. *)
Theorem input_validation (h : heap) (boxes boxes' : list Box)
        (labels labels' : list Z) (n n' : Z) :
  (n <= 0)%Z ->
  (64 <= n')%Z -> boxes' <> [] -> (length boxes' <= length labels')%nat ->
  (exists e, encode boxes labels n h = (Raise e, h)) /\
  (exists locs clss,
     encode boxes' labels' n' DataEncoder_new
     = (Ok (locs, clss), DataEncoder_new)).
Proof.
  intros Hn Hn' Hb Hl. split.
  - destruct (anchor_boxes_nonpos (self h) n Hn) as [e He].
    exists e. rewrite encode_run, He. reflexivity.
  - eexists _, _. apply default_encode; assumption.
Qed.

(** C7, as amended, at input size 0 and at the worked input with a second
    label. *)
Lemma input_validation_witness :
  (exists e, encode ex_boxes ex_labels 0 DataEncoder_new
             = (Raise e, DataEncoder_new)) /\
  (exists locs clss,
     encode ex_boxes [1%Z; 7%Z] 64 DataEncoder_new
     = (Ok (locs, clss), DataEncoder_new)).
Proof.
  apply (input_validation DataEncoder_new ex_boxes ex_boxes
           ex_labels [1%Z; 7%Z] 0 64).
  - lia.
  - lia.
  - discriminate.
  - simpl. lia.
Defined.

(** C7 as stated fails: one box with two labels, and a box of negative
    width and height, are both encoded without any failure. *)
Lemma mismatch_and_degenerate_accepted :
  (length ex_boxes <> length [1%Z; 7%Z] /\
   exists locs clss,
     encode ex_boxes [1%Z; 7%Z] 64 DataEncoder_new
     = (Ok (locs, clss), DataEncoder_new)) /\
  (1 / 4 - 1 / 2 <= 0 /\
   exists locs clss,
     encode [(1 / 2, 1 / 2, 1 / 4, 1 / 4)] [1%Z] 64 DataEncoder_new
     = (Ok (locs, clss), DataEncoder_new)).
Proof.
  split; split.
  - simpl. lia.
  - eexists _, _. apply default_encode; [lia|discriminate|simpl; lia].
  - lra.
  - eexists _, _. apply default_encode; [lia|discriminate|simpl; lia].
Qed.

(** C8.  With no ground-truth box, [encode] never returns: it raises what
    the anchor generator raises or else, the IoU matrix having no column,
    the error of the row maximum; the encoder is unchanged. *)
Theorem empty_ground_truth (h : heap) (labels : list Z) (n : Z) :
  encode [] labels n h
  = (match fst (_get_anchor_boxes n h) with
     | Ok _ => Raise RuntimeError
     | Raise e => Raise e
     end, h).
Proof.
  rewrite encode_run, get_anchor_boxes_run. cbn [fst].
  destruct (anchor_boxes_of (self h) n) as [anchors|e]; reflexivity.
Qed.

Lemma default_constructed :
  fst (_get_anchor_wh DataEncoder_new) = Ok (anchor_wh (self DataEncoder_new)).
Proof.
  rewrite get_anchor_wh_run, DataEncoder_new_eq. cbn [fst self].
  exact (anchor_wh_of_ok _ (default_config_ok _)).
Qed.

(** C9.  Construction runs [_get_anchor_wh] once and binds the table; a
    call of [encode] or of [_get_anchor_boxes], whether it returns or
    raises, leaves the store as it was: the four attributes keep their
    values and [_get_anchor_wh] is not run again. *)
Theorem encoder_state_frame :
  __init__ fresh = (Ok tt, DataEncoder_new) /\
  wh_runs fresh = 0%nat /\
  wh_runs DataEncoder_new = 1%nat /\
  fst (_get_anchor_wh DataEncoder_new) = Ok (anchor_wh (self DataEncoder_new)) /\
  (forall (h : heap) (boxes : list Box) (labels : list Z) (n : Z),
     snd (encode boxes labels n h) = h) /\
  (forall (h : heap) (n : Z), snd (_get_anchor_boxes n h) = h).
Proof.
  split; [rewrite DataEncoder_new_eq; exact init_run|].
  split; [reflexivity|].
  split; [rewrite DataEncoder_new_eq; reflexivity|].
  split; [exact default_constructed|].
  split.
  - intros h boxes labels n. rewrite encode_run. reflexivity.
  - intros h n. rewrite get_anchor_boxes_run. reflexivity.
Qed.

Lemma anchor_wh_of_config (o1 o2 : DataEncoder) :
  anchor_areas o1 = anchor_areas o2 ->
  aspect_ratios o1 = aspect_ratios o2 ->
  scale_ratios o1 = scale_ratios o2 ->
  anchor_wh_of o1 = anchor_wh_of o2.
Proof.
  intros Ea Er Es. unfold anchor_wh_of, wh_of_area.
  rewrite Ea, Er, Es. reflexivity.
Qed.

(** C10.  Two encoders with the same configuration, each holding the
    table computed from it, yield for every input size the same outcome of
    [_get_anchor_boxes]: the same list of boxes, or the same exception. *)
Theorem anchor_generator_deterministic (h1 h2 : heap) (n : Z) :
  anchor_areas (self h1) = anchor_areas (self h2) ->
  aspect_ratios (self h1) = aspect_ratios (self h2) ->
  scale_ratios (self h1) = scale_ratios (self h2) ->
  constructed h1 -> constructed h2 ->
  fst (_get_anchor_boxes n h1) = fst (_get_anchor_boxes n h2).
Proof.
  unfold constructed. rewrite !get_anchor_wh_run, !get_anchor_boxes_run.
  cbn [fst]. intros Ea Er Es C1 C2.
  rewrite (anchor_wh_of_config _ _ Ea Er Es), C2 in C1.
  inversion C1 as [Ew].
  destruct (self h1) as [a1 r1 s1 t1], (self h2) as [a2 r2 s2 t2].
  cbn [anchor_areas aspect_ratios scale_ratios anchor_wh] in *.
  subst. reflexivity.
Qed.

(** C10 for two constructed encoders, the second having been used more. *)
Lemma anchor_generator_deterministic_witness :
  fst (_get_anchor_boxes 600 DataEncoder_new)
  = fst (_get_anchor_boxes 600 (mkHeap (self DataEncoder_new) 7)).
Proof.
  assert (C : constructed DataEncoder_new)
    by exact default_constructed.
  apply anchor_generator_deterministic; try reflexivity; [exact C|].
  unfold constructed in *. rewrite get_anchor_wh_run in *. exact C.
Defined.

(** * Further properties of the encoder *)

(** ** Class targets *)

Lemma cls_of_values (m : R) (label : Z) :
  valid_label label ->
  cls_of m label = (-1)%Z \/ cls_of m label = 0%Z \/
  cls_of m label = (1 + label)%Z.
Proof.
  intros Hv. unfold cls_of, Rltb.
  rewrite valid_label_add by (unfold valid_label in Hv; lia).
  destruct (Rlt_dec m 0.4), (Rlt_dec 0.4 m), (Rlt_dec m 0.5); simpl; auto.
Qed.

(** X1.  After a call of [encode] that returns, with labels in [0, C) for
    a number of classes [C] that fits 64 bits, every class target is -1,
    0 or 1 + a label of the input, and so lies in [-1, C]. *)
Theorem cls_target_range (h : heap) (boxes : list Box) (labels : list Z)
        (n : Z) (locs : list Loc) (clss : list Z) (C : Z) :
  encode boxes labels n h = (Ok (locs, clss), h) ->
  Forall (fun l => (0 <= l < C)%Z) labels ->
  (C <= 2 ^ 63 - 1)%Z ->
  Forall (fun c => c = (-1)%Z \/ c = 0%Z \/
                   exists l, In l labels /\ c = (1 + l)%Z) clss /\
  Forall (fun c => (-1 <= c <= C)%Z) clss.
Proof.
  intros E Hl HC.
  destruct (encode_ok_inv _ _ _ _ _ _ _ E) as (anchors & _ & _ & Hid & _ & ->).
  rewrite Forall_forall in Hid, Hl.
  assert (Hc : forall a, In a anchors ->
             let c := cls_of (fst (match_of (scaled_boxes boxes n) a))
                             (matched_label (scaled_boxes boxes n) labels a) in
             (c = (-1)%Z \/ c = 0%Z \/ exists l, In l labels /\ c = (1 + l)%Z)
             /\ (-1 <= c <= C)%Z).
  { intros a Ha c. subst c.
    set (l := matched_label (scaled_boxes boxes n) labels a).
    assert (Hin : In l labels) by (apply nth_In, Hid, Ha).
    pose proof (Hl l Hin) as Hr.
    destruct (cls_of_values (fst (match_of (scaled_boxes boxes n) a)) l)
      as [H|[H|H]]; [unfold valid_label; lia| | |]; rewrite H.
    - split; [auto|lia].
    - split; [auto|lia].
    - split; [right; right; exists l; auto|lia]. }
  split; apply Forall_map, Forall_forall; intros a Ha; apply (Hc a Ha).
Qed.

(** X1 on the worked input, with two classes. *)
Lemma cls_target_range_witness :
  encode ex_boxes ex_labels 64 DataEncoder_new
  = (Ok (ex_locs, ex_clss), DataEncoder_new) /\
  Forall (fun c => (-1 <= c <= 2)%Z) ex_clss.
Proof.
  split; [exact ex_encode|].
  apply (cls_target_range DataEncoder_new ex_boxes ex_labels 64
           ex_locs ex_clss 2 ex_encode).
  - repeat constructor; lia.
  - lia.
Defined.




(** ** Outcomes of [encode] *)

Lemma index_select_outcome {A} (t : list A) (ids : list nat) :
  (exists r, index_select t ids = Ok r) \/
  index_select t ids = Raise IndexError.
Proof.
  unfold index_select. induction ids as [|id ids IH]; simpl.
  - left. eexists. reflexivity.
  - destruct (getitem t id) as [x|e] eqn:Ex; simpl.
    + destruct IH as [[r ->] | ->]; simpl.
      * left. eexists. reflexivity.
      * right. reflexivity.
    + right. unfold getitem in Ex.
      destruct (nth_error t id); [discriminate|]. congruence.
Qed.

(** X3.  Once the anchors are generated and there is a box, [encode]
    looks up a label only at the indices of matched boxes: it returns when
    every matched index has a label, and raises [IndexError] otherwise;
    the lengths of [boxes] and [labels] are not compared. *)
Theorem encode_outcome (h : heap) (boxes : list Box) (labels : list Z)
        (n : Z) (anchors : list Box) :
  _get_anchor_boxes n h = (Ok anchors, h) ->
  boxes <> [] ->
  (Forall (fun a =>
     (snd (match_of (scaled_boxes boxes n) a) < length labels)%nat) anchors /\
   exists locs clss, encode boxes labels n h = (Ok (locs, clss), h)) \/
  (Exists (fun a =>
     (length labels <= snd (match_of (scaled_boxes boxes n) a))%nat) anchors /\
   encode boxes labels n h = (Raise IndexError, h)).
Proof.
  intros Ha Hb. rewrite get_anchor_boxes_run in Ha. inversion Ha as [Ea].
  rewrite encode_run, Ea. cbn [rbind].
  destruct (Forall_Exists_dec
              (fun a => (snd (match_of (scaled_boxes boxes n) a)
                         < length labels)%nat)
              (fun a => lt_dec _ _) anchors) as [Hall|Hex].
  - left. split; [exact Hall|].
    rewrite (targets_ok _ _ _ _ Hb Hall). eexists _, _. reflexivity.
  - right.
    assert (Hex' : Exists (fun a =>
              (length labels <= snd (match_of (scaled_boxes boxes n) a))%nat)
              anchors)
      by (eapply Exists_impl; [|exact Hex]; cbv beta; intros; lia).
    split; [exact Hex'|].
    destruct (targets anchors boxes labels n) as [r|e] eqn:Et.
    + destruct (targets_inv _ _ _ _ _ Et) as [_ Hall].
      rewrite Forall_forall in Hall. apply Exists_exists in Hex'.
      destruct Hex' as (a & Hin & Hle). specialize (Hall a Hin). lia.
    + f_equal. f_equal. revert Et. unfold targets.
      rewrite box_iou_xywh. unfold torch_max1. cbn [ncols rows].
      rewrite scaled_boxes_length.
      destruct (Nat.eqb_spec (length boxes) 0) as [E0|_];
        [destruct boxes; simpl in E0; congruence|].
      cbn [rbind]. rewrite map_map, split_map. cbn [fst snd].
      rewrite (index_select_ok zero_box)
        by (apply Forall_map, Forall_forall; intros a _;
            apply match_of_in_range, scaled_boxes_nonempty; exact Hb).
      cbn [rbind].
      destruct (index_select_outcome labels
                  (map (fun x => snd (row_max (iou_row (scaled_boxes boxes n) x)))
                       anchors)) as [[r Er]|Er]; rewrite Er; cbn [rbind].
      * discriminate.
      * intros E. inversion E. reflexivity.
Qed.

(** X3 on the worked box without any label: [IndexError]. *)
Lemma encode_outcome_witness :
  encode ex_boxes [] 64 DataEncoder_new = (Raise IndexError, DataEncoder_new).
Proof.
  destruct (encode_outcome DataEncoder_new ex_boxes [] 64 (default_anchors 64)
              (default_get_anchor_boxes 64 ltac:(lia)) ltac:(discriminate))
    as [[Hall _]|[_ E]].
  - exfalso. rewrite Forall_forall in Hall.
    specialize (Hall ex_anchor (nth_error_In _ _ ex_anchor_at_84)).
    simpl in Hall. lia.
  - exact E.
Defined.

(** ** Regression targets of degenerate boxes *)




(** ** Outcomes of the anchor generator *)

Lemma level_boxes_inv (o : DataEncoder) (n : Z) (i : nat) (b : list Box) :
  level_boxes o n i = Ok b ->
  (i < length (anchor_areas o))%nat /\
  (1 <= fm_size_of n i)%Z /\
  exists slots, nth_error (anchor_wh o) i = Some slots /\ length slots = 9%nat.
Proof.
  unfold level_boxes, getitem.
  rewrite nth_error_map, nth_error_seq.
  destruct (Nat.ltb_spec i (length (anchor_areas o))) as [Hi|Hi];
    cbn [option_map rbind]; [|discriminate].
  cbn [Nat.add]. unfold py_floordiv.
  destruct (Z.eqb_spec (fm_size_of n i) 0) as [E|Hne]; [discriminate|].
  cbn [rbind]. unfold view_expand_cells.
  destruct (Z.ltb_spec (fm_size_of n i) 0) as [Hlt|Hge]; [discriminate|].
  destruct (Nat.eqb _ _); [|discriminate]. cbn [rbind].
  destruct (nth_error (anchor_wh o) i) as [slots|]; [|discriminate].
  cbn [rbind]. unfold view_expand_slots.
  destruct (Nat.eqb_spec (length slots) 9) as [Hlen|_]; [|discriminate].
  intros _. split; [exact Hi|]. split; [lia|].
  exists slots. split; [reflexivity|exact Hlen].
Qed.

Lemma anchor_boxes_ready (o : DataEncoder) (n : Z) :
  generator_ready o n -> anchor_boxes_of o n = Ok (anchors_layout o n).
Proof.
  intros [Hne Hlv]. unfold anchor_boxes_of, anchors_layout.
  rewrite (rmap_total _ (fun i =>
             level_layout (fm_size_of n i) (n / fm_size_of n i)
                          (nth i (anchor_wh o) []))).
  - destruct (anchor_areas o); [congruence|]. reflexivity.
  - apply Forall_forall. intros i Hi. apply in_seq in Hi.
    destruct (Hlv i ltac:(lia)) as (Hfm & slots & Hs & Hlen).
    rewrite (nth_error_nth _ _ [] Hs).
    apply level_boxes_ok; try assumption. lia.
Qed.

Lemma Forall2_In_l {A B} (P : A -> B -> Prop) (l : list A) (r : list B)
      (x : A) :
  Forall2 P l r -> In x l -> exists y, In y r /\ P x y.
Proof.
  induction 1 as [|a b l r Hab _ IH]; intros Hin; [destruct Hin|].
  destruct Hin as [->|Hin].
  - exists b. split; [left; reflexivity|exact Hab].
  - destruct (IH Hin) as (y & Hy & Hp). exists y. split; [right|]; assumption.
Qed.

Lemma anchor_boxes_inv (o : DataEncoder) (n : Z) (boxes : list Box) :
  anchor_boxes_of o n = Ok boxes -> generator_ready o n.
Proof.
  unfold anchor_boxes_of.
  destruct (rmap (level_boxes o n) (seq 0 (length (anchor_areas o))))
    as [lv|e] eqn:Er; cbn [rbind]; [|discriminate].
  intros Hcat. split.
  - intros E. rewrite E in Er. simpl in Er. inversion Er; subst.
    discriminate.
  - intros i Hi. apply rmap_ok_inv in Er.
    assert (Hin : In i (seq 0 (length (anchor_areas o))))
      by (apply in_seq; lia).
    destruct (Forall2_In_l _ _ _ _ Er Hin) as (b & _ & Hb).
    destruct (level_boxes_inv _ _ _ _ Hb) as (_ & Hfm & Hrow).
    split; assumption.
Qed.

(** X5.  [_get_anchor_boxes] on any object: it returns, and then returns
    the level layouts in level order, exactly when the object has at least
    one level and every level has a feature map of at least one cell and a
    table row of exactly 9 pairs (the 9 of [view] and [expand] is fixed,
    whatever the configured ratios); otherwise it raises. *)
Theorem generator_outcome (h : heap) (n : Z) :
  (generator_ready (self h) n ->
   _get_anchor_boxes n h = (Ok (anchors_layout (self h) n), h)) /\
  (~ generator_ready (self h) n ->
   exists e, _get_anchor_boxes n h = (Raise e, h)).
Proof.
  rewrite get_anchor_boxes_run. split.
  - intros Hr. rewrite (anchor_boxes_ready _ _ Hr). reflexivity.
  - intros Hn. destruct (anchor_boxes_of (self h) n) as [boxes|e] eqn:E.
    + destruct (Hn (anchor_boxes_inv _ _ _ E)).
    + exists e. reflexivity.
Qed.

(** X5 on an encoder configured with two aspect ratios, 6 anchors per
    cell: the generator raises. *)
Lemma generator_outcome_witness :
  exists e,
    _get_anchor_boxes 600
      (mkHeap (mkDataEncoder default_areas [1 / 2; 1] default_scales
                 (anchor_wh_table default_areas [1 / 2; 1] default_scales)) 1)
    = (Raise e,
       mkHeap (mkDataEncoder default_areas [1 / 2; 1] default_scales
                 (anchor_wh_table default_areas [1 / 2; 1] default_scales)) 1).
Proof.
  apply (proj2 (generator_outcome _ 600)).
  intros [_ Hlv]. cbn [self anchor_areas anchor_wh] in Hlv.
  destruct (Hlv 0%nat ltac:(simpl; lia)) as (_ & slots & Hs & Hlen).
  simpl in Hs. inversion Hs; subst slots. simpl in Hlen. discriminate.
Defined.

Lemma fm_size_threshold (n : Z) (i : nat) :
  (0 <= n)%Z ->
  ((n < 2 ^ Z.of_nat (i + 2))%Z -> fm_size_of n i = 0%Z) /\
  ((2 ^ Z.of_nat (i + 2) <= n)%Z -> (1 <= fm_size_of n i)%Z).
Proof.
  intros Hn. rewrite (fm_size_nonneg_input n i Hn).
  replace (Z.of_nat (i + 3)) with (Z.succ (Z.of_nat (i + 2))) by lia.
  rewrite Z.pow_succ_r by lia.
  assert (Hd : (0 < 2 ^ Z.of_nat (i + 2))%Z) by (apply Z.pow_pos_nonneg; lia).
  set (d := (2 ^ Z.of_nat (i + 2))%Z) in *. split; intros H.
  - apply Z.div_small. lia.
  - apply Z.div_le_lower_bound; lia.
Qed.

Lemma fm_size_0_small (n : Z) :
  (-12 < n < 4)%Z -> fm_size_of n 0 = 0%Z.
Proof.
  intros H.
  assert (Hc : In n [-11; -10; -9; -8; -7; -6; -5; -4; -3; -2; -1;
                     0; 1; 2; 3]%Z) by (simpl; lia).
  simpl in Hc.
  repeat (destruct Hc as [<-|Hc]; [vm_compute; reflexivity|]).
  destruct Hc.
Qed.

Lemma level_boxes_zero (o : DataEncoder) (n : Z) (i : nat) :
  (i < length (anchor_areas o))%nat -> fm_size_of n i = 0%Z ->
  level_boxes o n i = Raise ZeroDivisionError.
Proof.
  intros Hi Hz. unfold level_boxes, getitem.
  rewrite nth_error_map, nth_error_seq.
  destruct (Nat.ltb_spec i (length (anchor_areas o))); [|lia].
  cbn [option_map rbind Nat.add]. rewrite Hz. reflexivity.
Qed.

Lemma rmap_raise_at {A B} (f : A -> result B) (l1 l2 : list A) (x : A)
      (e : exn) :
  Forall (fun y => exists b, f y = Ok b) l1 -> f x = Raise e ->
  rmap f (l1 ++ x :: l2) = Raise e.
Proof.
  induction 1 as [|y l1 [b Hb] _ IH]; intros Hx; simpl.
  - rewrite Hx. reflexivity.
  - rewrite Hb, (IH Hx). reflexivity.
Qed.

Lemma default_level_ok (n : Z) (i : nat) :
  (i < 5)%nat -> (1 <= fm_size_of n i)%Z ->
  exists b, level_boxes default_encoder n i = Ok b.
Proof.
  intros Hi Hfm. destruct (default_table_row i Hi) as [E L].
  eexists. apply level_boxes_ok; eassumption.
Qed.

Lemma default_small_input (n : Z) :
  (-12 < n < 64)%Z ->
  anchor_boxes_of default_encoder n = Raise ZeroDivisionError.
Proof.
  intros Hn. unfold anchor_boxes_of. cbn [anchor_areas default_encoder].
  change (length default_areas) with 5%nat.
  assert (Hfail : forall j l1 l2,
            seq 0 5 = l1 ++ j :: l2 -> (j < 5)%nat ->
            Forall (fun i => (i < 5)%nat /\ (1 <= fm_size_of n i)%Z) l1 ->
            fm_size_of n j = 0%Z ->
            rbind (rmap (level_boxes default_encoder n) (seq 0 5)) torch_cat
            = Raise ZeroDivisionError).
  { intros j l1 l2 -> Hj Hl1 Hz.
    rewrite (rmap_raise_at _ l1 l2 j ZeroDivisionError); [reflexivity| |].
    - eapply Forall_impl; [|exact Hl1]. intros i [Hi Hfm].
      apply default_level_ok; assumption.
    - apply level_boxes_zero; [|exact Hz].
      cbn [anchor_areas default_encoder].
      change (length default_areas) with 5%nat. exact Hj. }
  assert (Hge : forall i, (0 <= n)%Z -> (2 ^ Z.of_nat (i + 2) <= n)%Z ->
                          (1 <= fm_size_of n i)%Z)
    by (intros i H0; apply (fm_size_threshold n i H0)).
  assert (Hz : forall i, (0 <= n)%Z -> (n < 2 ^ Z.of_nat (i + 2))%Z ->
                         fm_size_of n i = 0%Z)
    by (intros i H0; apply (fm_size_threshold n i H0)).
  destruct (Z.lt_ge_cases n 4) as [H4|H4].
  { apply (Hfail 0%nat [] [1; 2; 3; 4]%nat eq_refl); [lia|constructor|].
    apply fm_size_0_small. lia. }
  destruct (Z.lt_ge_cases n 8) as [H8|H8].
  { apply (Hfail 1%nat [0]%nat [2; 3; 4]%nat eq_refl); [lia| |].
    - repeat constructor; try lia. apply Hge; [lia|]. simpl. lia.
    - apply Hz; [lia|]. simpl. lia. }
  destruct (Z.lt_ge_cases n 16) as [H16|H16].
  { apply (Hfail 2%nat [0; 1]%nat [3; 4]%nat eq_refl); [lia| |].
    - repeat constructor; try lia; (apply Hge; [lia|]; simpl; lia).
    - apply Hz; [lia|]. simpl. lia. }
  destruct (Z.lt_ge_cases n 32) as [H32|H32].
  { apply (Hfail 3%nat [0; 1; 2]%nat [4]%nat eq_refl); [lia| |].
    - repeat constructor; try lia; (apply Hge; [lia|]; simpl; lia).
    - apply Hz; [lia|]. simpl. lia. }
  apply (Hfail 4%nat [0; 1; 2; 3]%nat [] eq_refl); [lia| |].
  - repeat constructor; try lia; (apply Hge; [lia|]; simpl; lia).
  - apply Hz; [lia|]. simpl. lia.
Qed.

(** X6.  The smallest input size of the constructed encoder: the anchor
    generator returns exactly for input sizes of at least 64; below, from
    -11 up to 63, the feature map of some level has size 0 and the integer
    division of line 50 raises [ZeroDivisionError]. *)
Theorem minimal_input_size (n : Z) :
  ((exists boxes,
      _get_anchor_boxes n DataEncoder_new = (Ok boxes, DataEncoder_new))
   <-> (64 <= n)%Z) /\
  ((-12 < n < 64)%Z ->
   _get_anchor_boxes n DataEncoder_new
   = (Raise ZeroDivisionError, DataEncoder_new)).
Proof.
  assert (Hsmall : (-12 < n < 64)%Z ->
            _get_anchor_boxes n DataEncoder_new
            = (Raise ZeroDivisionError, DataEncoder_new)).
  { intros Hn. rewrite get_anchor_boxes_run, DataEncoder_new_eq. cbn [self].
    rewrite (default_small_input n Hn). reflexivity. }
  split; [|exact Hsmall]. split.
  - intros [boxes E]. destruct (Z.lt_ge_cases n 64) as [Hlt|Hge]; [|exact Hge].
    exfalso. destruct (Z.lt_ge_cases (-12) n) as [H12|H12].
    + rewrite Hsmall in E by lia. discriminate.
    + rewrite get_anchor_boxes_run in E.
      destruct (anchor_boxes_nonpos (self DataEncoder_new) n ltac:(lia))
        as [e He].
      rewrite He in E. discriminate.
  - intros Hn. eexists. apply default_get_anchor_boxes. exact Hn.
Qed.

(** X6 at input size 63. *)
Lemma minimal_input_size_witness :
  _get_anchor_boxes 63 DataEncoder_new
  = (Raise ZeroDivisionError, DataEncoder_new).
Proof. apply (proj2 (minimal_input_size 63)). lia. Defined.

(** ** Strides and centers *)

(** X7.  When [2^(i+3)] divides the input size, level [i] has exactly
    [input_size / 2^(i+3)] cells a side and the nominal stride [2^(i+3)];
    otherwise the stride of line 50 may differ from it: an input size of
    600 gives the feature maps 75, 38, 19, 9, 5 and the strides 8, 15, 31,
    66, 120. *)
Theorem nominal_strides (n : Z) (i : nat) (q : Z) :
  (0 < q)%Z -> n = (q * 2 ^ Z.of_nat (i + 3))%Z ->
  fm_size_of n i = q /\
  (n / fm_size_of n i)%Z = (2 ^ Z.of_nat (i + 3))%Z /\
  map (fun j => (fm_size_of 600 j, 600 / fm_size_of 600 j)%Z) (seq 0 5)
  = [(75, 8); (38, 15); (19, 31); (9, 66); (5, 120)]%Z.
Proof.
  intros Hq Hn.
  assert (Hd : (0 < 2 ^ Z.of_nat (i + 3))%Z) by (apply Z.pow_pos_nonneg; lia).
  assert (Hfm : fm_size_of n i = q).
  { rewrite fm_size_nonneg_input by nia. subst n.
    set (d := (2 ^ Z.of_nat (i + 3))%Z) in *.
    replace (2 * (q * d) + d)%Z with ((2 * q + 1) * d)%Z by ring.
    rewrite Z.div_mul_cancel_r by lia.
    symmetry. apply (Z.div_unique (2 * q + 1) 2 q 1); lia. }
  split; [exact Hfm|]. split.
  - rewrite Hfm. subst n. rewrite Z.mul_comm. apply Z.div_mul. lia.
  - vm_compute. reflexivity.
Qed.

(** X7 at an input size of 512 and level 4. *)
Lemma nominal_strides_witness :
  fm_size_of 512 4 = 4%Z /\ (512 / fm_size_of 512 4)%Z = 128%Z.
Proof.
  destruct (nominal_strides 512 4 4 ltac:(lia) ltac:(vm_compute; reflexivity))
    as (Hfm & Hs & _).
  split; [exact Hfm|]. rewrite Hs. vm_compute. reflexivity.
Defined.

Lemma fm_size_le_input (n : Z) (i : nat) :
  (64 <= n)%Z -> (fm_size_of n i <= n)%Z.
Proof.
  intros Hn. rewrite fm_size_nonneg_input by lia.
  assert (Hd : (8 <= 2 ^ Z.of_nat (i + 3))%Z).
  { change 8%Z with (2 ^ 3)%Z. apply Z.pow_le_mono_r; lia. }
  apply Z.div_le_upper_bound; nia.
Qed.

Lemma in_range (n x : Z) : In x (range n) -> (0 <= x < n)%Z.
Proof.
  unfold range. intros H. apply in_map_iff in H.
  destruct H as (j & <- & Hj). apply in_seq in Hj. lia.
Qed.

Lemma cell_center_inside (n fm : Z) (c : R * R) :
  (1 <= fm <= n)%Z ->
  In c (cell_centers fm (n / fm)) ->
  0 < fst c < IZR n /\ 0 < snd c < IZR n.
Proof.
  intros Hfm Hc. unfold cell_centers in Hc.
  apply in_flat_map in Hc. destruct Hc as (row & Hrow & Hc).
  apply in_map_iff in Hc. destruct Hc as (col & <- & Hcol).
  apply in_range in Hrow. apply in_range in Hcol. cbn [fst snd].
  assert (Hg1 : (1 <= n / fm)%Z) by (apply Z.div_le_lower_bound; lia).
  assert (Hg2 : (fm * (n / fm) <= n)%Z) by (apply Z.mul_div_le; lia).
  set (g := (n / fm)%Z) in *.
  assert (Rg1 : 1 <= IZR g) by (apply IZR_le; exact Hg1).
  assert (Rg2 : IZR fm * IZR g <= IZR n)
    by (rewrite <- mult_IZR; apply IZR_le; exact Hg2).
  assert (Rr : 0 <= IZR row <= IZR fm - 1).
  { split; [apply IZR_le; lia|].
    rewrite <- minus_IZR. apply IZR_le. lia. }
  assert (Rc : 0 <= IZR col <= IZR fm - 1).
  { split; [apply IZR_le; lia|].
    rewrite <- minus_IZR. apply IZR_le. lia. }
  repeat split; nra.
Qed.

(** X8.  For an input size of at least 64, every anchor of the constructed
    encoder has its center strictly inside the image square
    [(0, input_size)] x [(0, input_size)] and a positive width and
    height. *)
Theorem anchors_inside_image (n : Z) :
  (64 <= n)%Z ->
  exists boxes,
    _get_anchor_boxes n DataEncoder_new = (Ok boxes, DataEncoder_new) /\
    Forall (fun a : Box =>
              let '(cx, cy, w, h) := a in
              0 < cx < IZR n /\ 0 < cy < IZR n /\ 0 < w /\ 0 < h) boxes.
Proof.
  intros Hn. exists (default_anchors n).
  split; [apply default_get_anchor_boxes; exact Hn|].
  apply Forall_forall. intros a Ha.
  pose proof (default_anchor_positive n a Ha) as Hpos.
  unfold default_anchors in Ha. apply in_concat in Ha.
  destruct Ha as (lvl & Hlvl & Ha). apply in_map_iff in Hlvl.
  destruct Hlvl as (i & <- & Hi). apply in_seq in Hi.
  unfold default_level, level_layout in Ha.
  apply in_flat_map in Ha. destruct Ha as (c & Hc & Ha).
  apply in_map_iff in Ha. destruct Ha as (wh & <- & _).
  assert (Hfm : (1 <= fm_size_of n i <= n)%Z)
    by (split; [apply fm_size_pos; lia|apply fm_size_le_input; exact Hn]).
  destruct (cell_center_inside n _ c Hfm Hc) as [Hx Hy].
  unfold positive_size in Hpos. tauto.
Qed.

(** X8 at the anchor of the worked input. *)
Lemma anchors_inside_image_witness :
  0 < 12 < IZR 64 /\ 0 < 12 < IZR 64 /\ 0 < 32 /\ 0 < 32.
Proof.
  destruct (anchors_inside_image 64 ltac:(lia)) as (boxes & E & Hall).
  rewrite (default_get_anchor_boxes 64 ltac:(lia)) in E.
  inversion E; subst boxes. rewrite Forall_forall in Hall.
  exact (Hall ex_anchor (nth_error_In _ _ ex_anchor_at_84)).
Defined.

(** ** Shape of the table entries *)

Lemma default_config_positive :
  Forall (fun s => 0 < s) default_areas /\
  Forall (fun ar => 0 < ar) default_ratios /\
  Forall (fun sr => 0 < sr) default_scales.
Proof.
  repeat split; repeat constructor; try lra; apply exp_pos.
Qed.

(** X9.  In the table of the constructed encoder the entry of area [s],
    aspect ratio [ar] and scale ratio [sr] is a box of area [s * sr^2] and
    of width [ar] times its height, both positive. *)
Theorem anchor_shape (i j k : nat) (s ar sr w h : R) :
  nth_error (anchor_areas (self DataEncoder_new)) i = Some s ->
  nth_error (aspect_ratios (self DataEncoder_new)) j = Some ar ->
  nth_error (scale_ratios (self DataEncoder_new)) k = Some sr ->
  nth_error (nth i (anchor_wh (self DataEncoder_new)) []) (3 * j + k)
  = Some (w, h) ->
  w * h = s * (sr * sr) /\ w = ar * h /\ 0 < w /\ 0 < h.
Proof.
  rewrite DataEncoder_new_eq.
  cbn [self default_encoder anchor_areas aspect_ratios scale_ratios anchor_wh].
  intros Hs Har Hsr Hwh.
  pose proof (nth_error_anchor_wh_table _ _ _ i j k s ar sr Hs Har Hsr) as E.
  change (length default_scales) with 3%nat in E.
  rewrite Nat.mul_comm, Hwh in E. inversion E; subst w h.
  destruct default_config_positive as (Pa & Pr & Ps).
  rewrite Forall_forall in Pa, Pr, Ps.
  pose proof (Pa s (nth_error_In _ _ Hs)) as Hs0.
  pose proof (Pr ar (nth_error_In _ _ Har)) as Har0.
  pose proof (Ps sr (nth_error_In _ _ Hsr)) as Hsr0.
  assert (Hq : 0 < s / ar) by (apply Rdiv_lt_0_compat; assumption).
  pose proof (sqrt_lt_R0 _ Hq) as Hroot.
  pose proof (sqrt_sqrt (s / ar) ltac:(lra)) as Hsq.
  set (r := sqrt (s / ar)) in *.
  repeat split.
  - replace (ar * r * sr * (r * sr)) with (ar * (r * r) * (sr * sr)) by ring.
    rewrite Hsq. field. lra.
  - ring.
  - apply Rmult_lt_0_compat; [apply Rmult_lt_0_compat|]; assumption.
  - apply Rmult_lt_0_compat; assumption.
Qed.

(** X9 at level 0, aspect ratio 2 and scale ratio 1 (slot 6). *)
Lemma anchor_shape_witness :
  exists w h,
    nth_error (nth 0 (anchor_wh (self DataEncoder_new)) []) (3 * 2 + 0)
    = Some (w, h) /\
    w * h = 32 * 32 * (1 * 1) /\ w = 2 / 1 * h.
Proof.
  assert (Hwh : nth_error (nth 0 (anchor_wh (self DataEncoder_new)) [])
                          (3 * 2 + 0)
                = Some (2 / 1 * sqrt (32 * 32 / (2 / 1)) * 1,
                        sqrt (32 * 32 / (2 / 1)) * 1))
    by (rewrite DataEncoder_new_eq; reflexivity).
  eexists _, _. split; [exact Hwh|].
  assert (Hs : nth_error (anchor_areas (self DataEncoder_new)) 0
               = Some (32 * 32))
    by (rewrite DataEncoder_new_eq; reflexivity).
  assert (Har : nth_error (aspect_ratios (self DataEncoder_new)) 2
                = Some (2 / 1))
    by (rewrite DataEncoder_new_eq; reflexivity).
  assert (Hsr : nth_error (scale_ratios (self DataEncoder_new)) 0 = Some 1)
    by (rewrite DataEncoder_new_eq; reflexivity).
  destruct (anchor_shape 0 2 0 _ _ _ _ _ Hs Har Hsr Hwh) as (H1 & H2 & _).
  split; assumption.
Defined.

(** ** Outcomes of [_get_anchor_wh] and of [__init__] *)







(** X11.  [__init__] does not read the attributes it finds: run on any
    object it binds the default configuration and its table, and counts
    one run of [_get_anchor_wh]. *)
Theorem init_overwrites (h : heap) :
  __init__ h = (Ok tt, mkHeap default_encoder (S (wh_runs h))).
Proof.
  destruct h as [o c]. unfold __init__.
  unfold bind at 1. unfold set_self at 1. cbn [self wh_runs aspect_ratios
    scale_ratios anchor_wh anchor_areas].
  unfold bind at 1. unfold set_self at 1. cbn [self wh_runs aspect_ratios
    scale_ratios anchor_wh anchor_areas].
  unfold bind at 1. unfold set_self at 1. cbn [self wh_runs aspect_ratios
    scale_ratios anchor_wh anchor_areas].
  unfold bind at 1. rewrite get_anchor_wh_run. cbn [self wh_runs].
  pose proof (anchor_wh_of_ok _ (default_config_ok (anchor_wh o))) as E.
  cbn [anchor_areas aspect_ratios scale_ratios] in E.
  unfold default_encoder, default_areas, default_ratios, default_scales in *.
  unfold bind, attr, set_self, lift in *.
  rewrite E. reflexivity.
Qed.

(** ** A ground-truth box that is an anchor *)

Lemma iou_self (a : Box) : positive_size a -> iou a a = 1.
Proof.
  destruct a as [[[cx cy] w] h]. intros [Hw Hh].
  unfold iou, to_xyxy, iou_xyxy.
  rewrite (Rmin_left (cx + w / 2)), (Rmin_left (cy + h / 2)),
          (Rmax_left (cx - w / 2) (cx - w / 2)),
          (Rmax_left (cy - h / 2) (cy - h / 2)) by lra.
  rewrite !(Rmax_left _ 0) by lra.
  destruct (Req_dec_T _ 0) as [E|Hne]; [nra|].
  field. nra.
Qed.

Lemma loc_of_self (a : Box) :
  positive_size a -> loc_of a a = (Fin 0, Fin 0, Fin 0, Fin 0).
Proof.
  destruct a as [[[cx cy] w] h]. intros [Hw Hh]. unfold loc_of, fdiv, flog.
  destruct (Req_dec_T w 0); [lra|]. destruct (Req_dec_T h 0); [lra|].
  replace (w / w) with 1 by (field; lra).
  replace (h / h) with 1 by (field; lra).
  destruct (Rlt_dec 0 1); [|lra]. rewrite ln_1.
  repeat f_equal; field; lra.
Qed.

(** With a single ground-truth box every anchor is matched to it. *)
Lemma single_box_targets (n : Z) (b g : Box) (label : Z) (k : nat) (a : Box) :
  (64 <= n)%Z ->
  nth_error (default_anchors n) k = Some a ->
  scaled_boxes [b] n = [g] ->
  exists locs clss,
    encode [b] [label] n DataEncoder_new
    = (Ok (locs, clss), DataEncoder_new) /\
    length locs = total_anchors n /\
    nth_error locs k = Some (loc_of a g) /\
    nth_error clss k = Some (cls_of (iou a g) label).
Proof.
  intros Hn Hk Hg. eexists _, _.
  split; [apply default_encode; [exact Hn|discriminate|simpl; lia]|].
  rewrite length_map, length_default_anchors, !nth_error_map, Hk.
  cbn [option_map]. unfold matched_box, matched_label, match_of, iou_row.
  rewrite Hg. cbn [map row_max row_max_from fst snd nth].
  auto.
Qed.

(** X12.  For the constructed encoder and an input size of at least 64:
    when the only ground-truth box, scaled to pixels, is the anchor at
    position [k], that anchor gets the regression target (0, 0, 0, 0) and
    the class target 1 + label. *)
Theorem exact_match (n : Z) (b a : Box) (label : Z) (k : nat)
        (anchors : list Box) :
  (64 <= n)%Z ->
  valid_label label ->
  _get_anchor_boxes n DataEncoder_new = (Ok anchors, DataEncoder_new) ->
  nth_error anchors k = Some a ->
  scaled_boxes [b] n = [a] ->
  exists locs clss,
    encode [b] [label] n DataEncoder_new
    = (Ok (locs, clss), DataEncoder_new) /\
    nth_error locs k = Some (Fin 0, Fin 0, Fin 0, Fin 0) /\
    nth_error clss k = Some (1 + label)%Z.
Proof.
  intros Hn Hv Ha Hk Hg.
  rewrite (default_get_anchor_boxes n Hn) in Ha. inversion Ha; subst anchors.
  assert (Hpos : positive_size a)
    by (apply (default_anchor_positive n); eapply nth_error_In; exact Hk).
  destruct (single_box_targets n b a label k a Hn Hk Hg)
    as (locs & clss & E & _ & Hl & Hc).
  exists locs, clss. split; [exact E|].
  rewrite Hl, Hc, (loc_of_self a Hpos), (iou_self a Hpos).
  split; [reflexivity|].
  destruct (cls_of_cases 1 label Hv) as (_ & _ & H & _).
  rewrite H by lra. reflexivity.
Qed.

Lemma anchor_600_at_3 : nth_error (default_anchors 600) 3 = Some (4, 4, 32, 32).
Proof.
  assert (Hfm : fm_size_of 600 0 = 75%Z) by (vm_compute; reflexivity).
  replace 3%nat
    with (level_offset 600 0
          + ((0 * Z.to_nat (fm_size_of 600 0) + 0) * 9 + 3))%nat
    by (vm_compute; reflexivity).
  rewrite (nth_error_default_anchors 600 0 0 0 3
             (1 / 1 * sqrt (32 * 32 / (1 / 1)) * 1)
             (sqrt (32 * 32 / (1 / 1)) * 1)).
  - rewrite Hfm, sqrt_1024.
    change (600 / 75)%Z with 8%Z. change (Z.of_nat 0) with 0%Z.
    repeat f_equal; lra.
  - lia.
  - rewrite Hfm. vm_compute. lia.
  - rewrite Hfm. vm_compute. lia.
  - reflexivity.
Qed.

Lemma test_boxes_scaled : scaled_boxes test_boxes 600 = [(4, 4, 32, 32)].
Proof.
  unfold scaled_boxes, test_boxes. cbn [map change_box_order tmul4].
  repeat f_equal; lra.
Qed.

(** X12 on the box of [test]. *)
Lemma exact_match_witness :
  exists locs clss,
    encode test_boxes test_labels 600 DataEncoder_new
    = (Ok (locs, clss), DataEncoder_new) /\
    nth_error locs 3 = Some (Fin 0, Fin 0, Fin 0, Fin 0) /\
    nth_error clss 3 = Some 2%Z.
Proof.
  exact (exact_match 600 _ (4, 4, 32, 32) 1 3 (default_anchors 600)
           ltac:(lia) ltac:(unfold valid_label; lia)
           (default_get_anchor_boxes 600 ltac:(lia))
           anchor_600_at_3 test_boxes_scaled).
Defined.

(** X13.  [test()] returns without raising and leaves a constructed
    encoder; the targets it drops have one entry for each of the 67824
    anchors, and the anchor that coincides with its box (position 3, the
    32 x 32 anchor of the first cell) is foreground of class 2 with a zero
    regression target. *)
Theorem test_returns :
  test fresh = (Ok tt, DataEncoder_new) /\
  exists locs clss,
    encode test_boxes test_labels 600 DataEncoder_new
    = (Ok (locs, clss), DataEncoder_new) /\
    Z.of_nat (length locs) = 67824%Z /\
    nth_error locs 3 = Some (Fin 0, Fin 0, Fin 0, Fin 0) /\
    nth_error clss 3 = Some 2%Z.
Proof.
  assert (Eb : test_boxes
               = [((600 / 75 / 2 - 32 / 2) / 600, (600 / 75 / 2 - 32 / 2) / 600,
                   (600 / 75 / 2 + 32 / 2) / 600, (600 / 75 / 2 + 32 / 2) / 600)])
    by reflexivity.
  pose proof test_boxes_scaled as Hs. rewrite Eb in Hs.
  destruct (single_box_targets 600 _ (4, 4, 32, 32) 1 3 (4, 4, 32, 32)
              ltac:(lia) anchor_600_at_3 Hs)
    as (locs & clss & E & Hlen & Hl & Hc).
  rewrite <- Eb in E. fold test_labels in E.
  split.
  - unfold test. unfold bind at 1. rewrite init_run.
    rewrite <- DataEncoder_new_eq.
    unfold bind. rewrite E. reflexivity.
  - exists locs, clss. split; [exact E|].
    assert (Hpos : positive_size (4, 4, 32, 32)) by (simpl; lra).
    rewrite Hlen, Hl, Hc, (loc_of_self _ Hpos), (iou_self _ Hpos).
    split; [exact total_anchors_600|]. split; [reflexivity|].
    destruct (cls_of_cases 1 1 ltac:(unfold valid_label; lia))
      as (_ & _ & H & _).
    rewrite H by lra. reflexivity.
Qed.

(** ** Surplus labels *)

(** X14.  When there are at least as many labels as boxes, the labels
    beyond the boxes are never read: appending labels changes neither the
    outcome of [encode] nor its targets. *)
Theorem surplus_labels_ignored (h : heap) (boxes : list Box)
        (labels extra : list Z) (n : Z) :
  (length boxes <= length labels)%nat ->
  encode boxes (labels ++ extra) n h = encode boxes labels n h.
Proof.
  intros Hl. rewrite !encode_run.
  destruct (anchor_boxes_of (self h) n) as [anchors|e]; [|reflexivity].
  cbn [rbind]. f_equal.
  destruct boxes as [|b boxes]; [reflexivity|].
  set (bs := b :: boxes) in *.
  assert (Hb : bs <> []) by discriminate.
  assert (Hid : forall a, (snd (match_of (scaled_boxes bs n) a)
                           < length labels)%nat).
  { intros a.
    pose proof (match_of_in_range (scaled_boxes bs n) a
                  (scaled_boxes_nonempty bs n Hb)) as H.
    rewrite scaled_boxes_length in H. lia. }
  rewrite !targets_ok; try exact Hb.
  - f_equal. f_equal. apply map_ext. intros a. unfold matched_label.
    rewrite app_nth1 by apply Hid. reflexivity.
  - apply Forall_forall. intros a _. apply Hid.
  - apply Forall_forall. intros a _. rewrite length_app.
    pose proof (Hid a). lia.
Qed.

(** X14 on the worked input with a second label. *)
Lemma surplus_labels_ignored_witness :
  encode ex_boxes [1%Z; 7%Z] 64 DataEncoder_new
  = (Ok (ex_locs, ex_clss), DataEncoder_new).
Proof.
  rewrite <- ex_encode.
  apply (surplus_labels_ignored DataEncoder_new ex_boxes ex_labels [7%Z] 64).
  simpl. lia.
Defined.
